(** * reinforceflow: the experience-replay buffer and the asynchronous
      n-step Q-learning agent

    A shallow embedding of [reinforceflow/core/experience.py] and of the
    control flow of [reinforceflow/agents/async_dqn.py].

    Conventions.
    - Python integers are [Z]; Python floats (rewards, action values, the
      discount factor) are exact rationals [Q], so rounding is not modelled.
    - A raised exception is the [inl] side of a sum; the exception carries
      the message the code builds.
    - Randomness, the scheduling of the worker threads and the arrival of
      Ctrl+C are inputs: the random generator is a function giving the
      successive raw draws, the supervision loop reads what it polls, and
      where a [KeyboardInterrupt] is raised, from a list of ticks.
    - TensorFlow, the environment, the policy and the network are
      collaborators: their operations are fields of a class, their visible
      effects are events of a trace. *)

From Stdlib Require Import String DecimalString.
From Stdlib Require Import ZArith QArith Qminmax List Bool Lia Permutation.
Import ListNotations.

Open Scope Z_scope.

(** ** Exceptions and results *)

Inductive Exception : Type :=
| ValueError (msg : string)
| IndexError (msg : string)
| NotImplementedError (msg : string)
| KeyboardInterrupt.

Definition result (A : Type) : Type := (Exception + A)%type.

Definition raise {A : Type} (e : Exception) : result A := inl e.
Definition ret {A : Type} (a : A) : result A := inr a.

Definition bind {A B : Type} (m : result A) (k : A -> result B) : result B :=
  match m with
  | inl e => inl e
  | inr a => k a
  end.

Notation "x <- m ;; k" := (bind m (fun x => k))
  (at level 61, m at next level, right associativity).

(** [str(n)] for a Python integer. *)
Definition str_of_Z (n : Z) : string := NilZero.string_of_int (Z.to_int n).

(** ** [random]: the generator as an oracle

    [rand i] is the raw value of the [i]-th draw; [randbelow] reduces it
    below the bound, as [Random._randbelow] does. *)

Definition Rng : Type := nat -> nat.

Definition randbelow (rand : Rng) (i n : nat) : nat := Nat.modulo (rand i) n.

(** [pool[j] = pool[n-i-1]]: overwrite position [j] with the last live
    element; the pool then shrinks by one. *)
Fixpoint set_nth {A : Type} (j : nat) (x : A) (l : list A) : list A :=
  match l, j with
  | [], _ => []
  | _ :: t, O => x :: t
  | h :: t, S j' => h :: set_nth j' x t
  end.

(** The pool branch of [random.sample]: [k] picks, the [i]-th one at
    position [randbelow(n-i)] of the live pool.  (For a population too
    large for a pool CPython remembers the picked positions in a set and
    draws again on a repeat; either way the picks sit at [k] distinct
    positions.)  The caller has checked [k <= n], so the pool is never
    empty when a pick is due. *)
Fixpoint sample_pool {A : Type} (rand : Rng) (i k : nat) (pool : list A)
  : list A :=
  match k with
  | O => []
  | S k' =>
      match pool with
      | [] => []
      | d :: _ =>
          let n := length pool in
          let j := randbelow rand i n in
          nth j pool d ::
            sample_pool rand (S i) k'
              (firstn (n - 1) (set_nth j (last pool d) pool))
      end
  end.

(** [random.sample(population, k)]. *)
Definition random_sample {A : Type} (rand : Rng) (population : list A) (k : Z)
  : result (list A) :=
  let n := Z.of_nat (length population) in
  if negb ((0 <=? k) && (k <=? n))
  then raise (ValueError "Sample larger than population or is negative")
  else ret (sample_pool rand 0 (Z.to_nat k) population).

(** ** [collections.deque] with [maxlen] *)

Module Deque.

Definition new (maxlen : Z) : result Z :=
  if maxlen <? 0
  then raise (ValueError "maxlen must be non-negative")
  else ret maxlen.

(** [append]: push on the right; a full deque drops its leftmost entry. *)
Definition append {A : Type} (maxlen : Z) (d : list A) (x : A) : list A :=
  let d' := d ++ [x] in
  if maxlen <? Z.of_nat (length d') then tl d' else d'.

(** The last [cap] entries of [l]: what a deque of that capacity holds
    after [l] was appended to it. *)
Definition keep {A : Type} (cap : nat) (l : list A) : list A :=
  skipn (length l - cap) l.

End Deque.

(** ** [ExperienceReplay] (core/experience.py) *)

Module ExperienceReplay.

Record t (A : Type) : Type := mk {
  memory : list A;
  maxlen : Z;
  batch_size : Z;
  min_size : Z
}.
Arguments mk {A}.
Arguments memory {A}.
Arguments maxlen {A}.
Arguments batch_size {A}.
Arguments min_size {A}.

(** [__init__(self, size, min_size, batch_size)] *)
Definition init (A : Type) (size min_size batch_size : Z) : result (t A) :=
  if min_size <? batch_size
  then raise (ValueError
                ("Minimum replay size must be higher or equal to batch size (Got: "
                   ++ str_of_Z batch_size ++ ")")%string)
  else
    cap <- Deque.new size ;;
    ret (mk [] cap batch_size (Z.min (size - batch_size) min_size)).

Definition add {A : Type} (self : t A) (value : A) : t A :=
  mk (Deque.append (maxlen self) (memory self) value)
     (maxlen self) (batch_size self) (min_size self).

Definition sample {A : Type} (rand : Rng) (self : t A) : result (list A) :=
  random_sample rand (memory self) (batch_size self).

Definition size {A : Type} (self : t A) : Z :=
  Z.of_nat (length (memory self)).

Definition is_ready {A : Type} (self : t A) : bool :=
  min_size self + batch_size self <=? size self.

(** A run of [add] calls, oldest value first. *)
Definition add_all {A : Type} (self : t A) (values : list A) : t A :=
  fold_left add values self.

(** [__len__] *)
Definition len {A : Type} (self : t A) : Z :=
  Z.of_nat (length (memory self)).

End ExperienceReplay.

(** ** Numeric helpers of the learner *)

Open Scope Q_scope.

(** [np.clip(x, lo, hi)]: [minimum(maximum(x, lo), hi)]. *)
Definition np_clip (x lo hi : Q) : Q := Qmin (Qmax x lo) hi.

(** [np.max] of an array of action values; an empty array has no maximum. *)
Definition np_max (values : list Q) : result Q :=
  match values with
  | [] => raise (ValueError
                   "zero-size array to reduction operation maximum which has no identity")
  | v :: rest => ret (fold_left Qmax rest v)
  end.

(** Modelled from the spec: [reinforceflow.misc.discount_rewards], which is
    not among the sources.  "For step i counting down from the end,
    return[i] = reward[i] + gamma * running_total, where running_total
    starts at the bootstrap value and is updated to return[i] after each
    step": one backward pass that fills the returns from the last one. *)
Fixpoint discount_loop (gamma : Q) (reversed_rewards : list Q)
  (running_total : Q) (returns : list Q) : list Q :=
  match reversed_rewards with
  | [] => returns
  | reward :: earlier =>
      let return_i := reward + gamma * running_total in
      discount_loop gamma earlier return_i (return_i :: returns)
  end.

Definition discount_rewards (rewards : list Q) (gamma expected_reward : Q)
  : list Q :=
  discount_loop gamma (rev rewards) expected_reward [].

(** The returns written front to back: each one is its reward plus the
    discounted return after it, the bootstrap value after the last. *)
Fixpoint returns_from (gamma bootstrap : Q) (rewards : list Q) : list Q :=
  match rewards with
  | [] => []
  | reward :: later =>
      let after := returns_from gamma bootstrap later in
      (reward + gamma * hd bootstrap after) :: after
  end.

(** Modelled from the spec: [reinforceflow.misc.IncrementalAverage], which is
    not among the sources.  "Accumulates a running mean; add(value),
    reset() -> mean, resets accumulator." *)
Module IncrementalAverage.

Record t : Type := mk { total : Q; count : Z }.

Definition new : t := mk 0 0%Z.

Definition add (self : t) (value : Q) : t :=
  mk (total self + value) (count self + 1)%Z.

Definition mean (self : t) : Q :=
  if (count self =? 0)%Z then 0 else total self / inject_Z (count self).

Definition reset (self : t) : Q * t := (mean self, new).

End IncrementalAverage.

Close Scope Q_scope.

(** ** The collaborators of a thread learner

    The environment, the exploration policy and the TensorFlow graph are
    given by their interface: [env_reset]/[env_step] are the environment
    contract, [select_action]/[epsilon] the policy, [forward] the network's
    per-action value estimates under given weights, [apply_gradients] what
    one run of the learner's [_train_op] makes of the global weights (the
    gradients are taken at the local weights), [merged_summary] the result
    of [_summary_op]. *)

Class Backend : Type := {
  Env : Type;
  Obs : Type;
  Action : Type;
  Policy : Type;
  Net : Type;
  Summary : Type;
  env_reset : Env -> Obs * Env;
  env_step : Env -> Action -> (Obs * Q * bool) * Env;
  select_action : Policy -> Env -> list Q -> Z -> Action * Policy;
  epsilon : Policy -> Q;
  forward : Net -> Obs -> list Q;
  apply_gradients : Net -> Net -> list Obs -> list Action -> list Q -> Net;
  merged_summary : Net -> list Obs -> list Action -> list Q -> Summary
}.

(** ** [_ThreadDQNLearner] (agents/async_dqn.py) *)

Module ThreadLearner.
Section WithBackend.
Context {backend : Backend}.

(** What a learner writes to the global agent's summary writer. *)
Inductive WriterRecord : Type :=
| Scalars (values : list (string * Q)) (global_step : Z)
| Merged (summary : Summary) (global_step : Z).

(** The global agent as a learner sees it. *)
Record GlobalAgent : Type := mkGlobal {
  weights : Net;
  target_weights : Net;
  obs_counter : Z;
  step_counter : Z;
  request_stop : bool;
  writer : list WriterRecord
}.

(** The learner's attributes set by [__init__]. *)
Record Config : Type := mkConfig {
  scope : string;
  gamma : Q;
  batch_size : Z;
  log_freq : Z
}.

(** The learner's mutable collaborators. *)
Record Learner : Type := mkLearner {
  env : Env;
  policy : Policy;
  local_weights : Net
}.

(** The local variables of [run] that live across batches. *)
Record Locals : Type := mkLocals {
  ep_reward : IncrementalAverage.t;
  ep_q : IncrementalAverage.t;
  reward_accum : Q;
  prev_step : Z;
  obs : Obs;
  term : bool
}.

Record Batch : Type := mkBatch {
  batch_obs : list Obs;
  batch_rewards : list Q;
  batch_actions : list Action
}.

Record Thread : Type := mkThread {
  glob : GlobalAgent;
  self : Learner;
  vars : Locals
}.

(** Modelled from the spec: [BaseDQNAgent.increment_obs_counter], which is
    not among the sources.  "Increment the shared ObservationCounter
    (atomic global increment, returns this thread's assigned step index)". *)
Definition increment_obs_counter (g : GlobalAgent) : Z * GlobalAgent :=
  ((obs_counter g + 1)%Z,
   mkGlobal (weights g) (target_weights g) (obs_counter g + 1)%Z
     (step_counter g) (request_stop g) (writer g)).

(** Modelled from the spec: [BaseDQNAgent.predict], which is not among the
    sources.  "Compute local network's per-action value estimates for
    current observation". *)
Definition predict (l : Learner) (o : Obs) : list Q :=
  forward (local_weights l) o.

(** Modelled from the spec: [BaseDQNAgent.target_predict], which is not among
    the sources.  The action-value estimates "from the GLOBAL TARGET network
    (not the local network)". *)
Definition target_predict (g : GlobalAgent) (o : Obs) : list Q :=
  forward (target_weights g) o.

(** [_sync_global]: the local weights take the global agent's values. *)
Definition sync_global (th : Thread) : Thread :=
  mkThread (glob th)
    (mkLearner (env (self th)) (policy (self th)) (weights (glob th)))
    (vars th).

(** The raw outcome of the environment step the learner is about to take:
    the action the policy selects at the current observation, and what
    [env.step] answers. *)
Definition next_action (th : Thread) : Action * Policy :=
  select_action (policy (self th)) (env (self th))
    (predict (self th) (obs (vars th)))
    (fst (increment_obs_counter (glob th))).

Definition next_step (th : Thread) : (Obs * Q * bool) * Env :=
  env_step (env (self th)) (fst (next_action th)).

Definition raw_reward (th : Thread) : Q := snd (fst (fst (next_step th))).

(** One pass through the body of the collecting loop (lines 245-253). *)
Definition collect_step (th : Thread) (b : Batch) : Thread * Batch :=
  let g' := snd (increment_obs_counter (glob th)) in
  let action := fst (next_action th) in
  let policy' := snd (next_action th) in
  let obs' := fst (fst (fst (next_step th))) in
  let reward := raw_reward th in
  let term' := snd (fst (next_step th)) in
  let env' := snd (next_step th) in
  let reward_accum' := (reward_accum (vars th) + reward)%Q in
  let reward := np_clip reward (-1 # 1) 1 in
  (mkThread g'
     (mkLearner env' policy' (local_weights (self th)))
     (mkLocals (ep_reward (vars th)) (ep_q (vars th)) reward_accum'
        (prev_step (vars th)) obs' term'),
   mkBatch (batch_obs b ++ [obs (vars th)])
     (batch_rewards b ++ [reward])
     (batch_actions b ++ [action])).

(** [not term and len(batch_obs) < self.batch_size] *)
Definition collecting (cfg : Config) (th : Thread) (b : Batch) : bool :=
  negb (term (vars th))
  && (Z.of_nat (length (batch_obs b)) <? batch_size cfg)%Z.

(** The collecting loop.  Every pass lengthens the batch by one, so
    [batch_size] passes are enough fuel from an empty batch. *)
Fixpoint collect (cfg : Config) (fuel : nat) (th : Thread) (b : Batch)
  : Thread * Batch :=
  match fuel with
  | O => (th, b)
  | S fuel' =>
      if collecting cfg th b
      then collect cfg fuel' (fst (collect_step th b)) (snd (collect_step th b))
      else (th, b)
  end.

(** Lines 241-243: a batch that ended an episode is followed by a reset. *)
Definition reset_if_term (th : Thread) : Thread :=
  if term (vars th)
  then mkThread (glob th)
         (mkLearner (snd (env_reset (env (self th)))) (policy (self th))
            (local_weights (self th)))
         (mkLocals (ep_reward (vars th)) (ep_q (vars th))
            (reward_accum (vars th)) (prev_step (vars th))
            (fst (env_reset (env (self th)))) false)
  else th.

Definition collect_batch (cfg : Config) (th : Thread) : Thread * Batch :=
  collect cfg (Z.to_nat (batch_size cfg)) (reset_if_term (sync_global th))
    (mkBatch [] [] []).

(** Lines 254-261: the bootstrap value and the running averages. *)
Definition bootstrap (th : Thread) : result (Q * Thread) :=
  if negb (term (vars th))
  then
    expected_reward <- np_max (target_predict (glob th) (obs (vars th))) ;;
    ret (expected_reward,
         mkThread (glob th) (self th)
           (mkLocals (ep_reward (vars th))
              (IncrementalAverage.add (ep_q (vars th)) expected_reward)
              (reward_accum (vars th)) (prev_step (vars th))
              (obs (vars th)) (term (vars th))))
  else
    ret (0%Q,
         mkThread (glob th) (self th)
           (mkLocals
              (IncrementalAverage.add (ep_reward (vars th))
                 (reward_accum (vars th)))
              (ep_q (vars th)) 0%Q (prev_step (vars th))
              (obs (vars th)) (term (vars th)))).

(** [np.vstack] refuses an empty sequence. *)
Definition np_vstack (observations : list Obs) : result (list Obs) :=
  match observations with
  | [] => raise (ValueError "need at least one array to concatenate")
  | _ => ret observations
  end.

(** Modelled from the spec: [BaseDQNAgent._train_on_batch], which is not
    among the sources.  It runs the learner's [_train_op]: "apply the
    clipped gradients to the GLOBAL parameters via the globally-shared
    optimizer instance; increment GlobalStepCounter once per apply"; the
    merged summary is produced when [summarize] is set. *)
Definition _train_on_batch (th : Thread) (observations : list Obs)
  (actions : list Action) (rewards : list Q) (summarize : bool)
  : option Summary * Thread :=
  let g := glob th in
  (if summarize
   then Some (merged_summary (local_weights (self th)) observations actions
                rewards)
   else None,
   mkThread
     (mkGlobal
        (apply_gradients (local_weights (self th)) (weights g) observations
           actions rewards)
        (target_weights g) (obs_counter g) (step_counter g + 1)%Z
        (request_stop g) (writer g))
     (self th) (vars th)).

(** Lines 268-282: the learner's own progress report. *)
Definition report (cfg : Config) (summary_str : option Summary) (th : Thread)
  : Thread :=
  let g := glob th in
  let prev_step' := obs_counter g in
  let train_r := fst (IncrementalAverage.reset (ep_reward (vars th))) in
  let train_q := fst (IncrementalAverage.reset (ep_q (vars th))) in
  let written :=
    match summary_str with
    | Some s =>
        [Scalars [((scope cfg ++ "train_r")%string, train_r);
                  ((scope cfg ++ "train_q")%string, train_q);
                  ((scope cfg ++ "epsilon")%string, epsilon (policy (self th)))]
           prev_step';
         Merged s prev_step']
    | None => []
    end in
  mkThread
    (mkGlobal (weights g) (target_weights g) (obs_counter g) (step_counter g)
       (request_stop g) (writer g ++ written))
    (self th)
    (mkLocals (snd (IncrementalAverage.reset (ep_reward (vars th))))
       (snd (IncrementalAverage.reset (ep_q (vars th))))
       (reward_accum (vars th)) prev_step' (obs (vars th)) (term (vars th))).

(** One pass through the body of [run]'s outer loop (lines 239-282). *)
Definition iteration (cfg : Config) (th : Thread) : result Thread :=
  let th1 := fst (collect_batch cfg th) in
  let b := snd (collect_batch cfg th) in
  boot <- bootstrap th1 ;;
  let expected_reward := fst boot in
  let th2 := snd boot in
  let returns := discount_rewards (batch_rewards b) (gamma cfg) expected_reward in
  let summarize :=
    term (vars th2) && negb (log_freq cfg =? 0)%Z
    && (log_freq cfg <? obs_counter (glob th2) - prev_step (vars th2))%Z in
  stacked <- np_vstack (batch_obs b) ;;
  let trained := _train_on_batch th2 stacked (batch_actions b) returns summarize in
  ret (if summarize then report cfg (fst trained) (snd trained) else snd trained).

(** Lines 232-237: the state [run] starts from. *)
Definition run_init (g : GlobalAgent) (l : Learner) : Thread :=
  mkThread g
    (mkLearner (snd (env_reset (env l))) (policy l) (local_weights l))
    (mkLocals IncrementalAverage.new IncrementalAverage.new 0%Q
       (obs_counter g) (fst (env_reset (env l))) true).

(** [run]'s outer loop.  [others n] is what the coordinator and the other
    learners did to the global agent before the [n]-th test of
    [request_stop]; the loop ends when the flag is seen set. *)
Fixpoint run_loop (cfg : Config) (others : nat -> GlobalAgent -> GlobalAgent)
  (fuel n : nat) (th : Thread) : result (option Thread) :=
  match fuel with
  | O => ret None
  | S fuel' =>
      let th' := mkThread (others n (glob th)) (self th) (vars th) in
      if request_stop (glob th')
      then ret (Some th')
      else th'' <- iteration cfg th' ;; run_loop cfg others fuel' (S n) th''
  end.

(** [train_on_batch(self, *args, **kwargs)] and [train]: both refuse, and
    touch nothing. *)
Definition train_on_batch {Args : Type} (th : Thread) (args : Args)
  : result unit * Thread :=
  (raise (NotImplementedError "Use `AsyncDQNAgent.train`."), th).

Definition train {Args : Type} (th : Thread) (args : Args)
  : result unit * Thread :=
  (raise (NotImplementedError "Use `AsyncDQNAgent.train`."), th).

(** [close] does nothing. *)
Definition close (th : Thread) : Thread := th.

End WithBackend.
End ThreadLearner.

(** A small deterministic instance of the collaborators, to run the learner
    on: the environment counts its steps, pays [1/2] for the first step of
    an episode and [5] afterwards, and ends the episode at the third step;
    the policy always selects action 0; the network with weight [w] values
    the two actions [w] and [w + 1]. *)
Definition counting_backend : Backend := {|
  Env := nat;
  Obs := nat;
  Action := nat;
  Policy := unit;
  Net := Q;
  Summary := unit;
  env_reset := fun _ => (0%nat, 0%nat);
  env_step := fun e _ =>
    ((S e, if (e =? 0)%nat then (1 # 2)%Q else 5%Q, (2 <=? e)%nat), S e);
  select_action := fun p _ _ _ => (0%nat, p);
  epsilon := fun _ => 1%Q;
  forward := fun w _ => [w; (w + 1)%Q];
  apply_gradients := fun _ g _ _ _ => g;
  merged_summary := fun _ _ _ _ => tt
|}.

Definition counting_thread (started : nat) (ended : bool)
  : ThreadLearner.Thread (backend := counting_backend) :=
  ThreadLearner.mkThread
    (ThreadLearner.mkGlobal (backend := counting_backend)
       (1 # 4)%Q 3%Q 10 0 false [])
    (ThreadLearner.mkLearner (backend := counting_backend) started tt 0%Q)
    (ThreadLearner.mkLocals (backend := counting_backend)
       IncrementalAverage.new IncrementalAverage.new 7%Q 0 started ended).

(** ** [AsyncDQNAgent] (agents/async_dqn.py) *)

Module AsyncDQNAgent.

(** The effects of [train] that are visible outside it, in program order. *)
Inductive Event : Type :=
| BuildTrainGraph
| LogSampledEpsilon (eps_min : Q) (t : nat)
| CreatePolicy (t : nat) (eps_final : Q)
| EnvCopy (t : nat)
| CreateLearner (t : nat)
| CreateWriter (log_dir : string)
| InitVariables
| LoadWeights (log_dir : string)
| StartThread (t : nat)
| Render (t : nat)
| Sleep
| WriteSummary
| SaveWeights (log_dir : string)
| TargetUpdate
| LogInfo (msg : string)
| WriterClose
| LearnerClose (t : nat).

(** Events of the shutdown sequence that closes things. *)
Definition closing (e : Event) : bool :=
  match e with
  | WriterClose | LearnerClose _ => true
  | _ => false
  end.

(** The arguments of [train] that steer its control flow; the optimizer
    settings only reach the graph construction.  [epsilon_pool] is the pool
    as a list (the code turns any other iterable into one). *)
Record Args : Type := mkArgs {
  num_threads : Z;
  steps : Z;
  log_dir : string;
  epsilon_pool : list Q;
  target_freq : Z;
  log_freq : Z;
  render : bool
}.

(** Where a [KeyboardInterrupt] falls in a pass through the loop body.
    [InTry done]: inside the [try], after [done] of its commands - or, when
    the body has no more than [done] commands, after the [try] statement,
    on the way back to line 131, where no handler is in reach.
    [InHandler done logged]: a first interrupt as for [InTry done], and a
    second one while the handler of lines 145-147 runs, after its log line
    when [logged], before [request_stop] is set. *)
Inductive Interrupt : Type :=
| InTry (done : nat)
| InHandler (done : nat) (logged : bool).

(** What one evaluation of the loop condition and one pass through the loop
    body observe: [isAlive()] of every learner, whether a
    [KeyboardInterrupt] is raised while the condition of line 131 is
    evaluated (outside the [try]), the observation counter read by the
    condition, the one read into [step], and the interrupt, if any, that
    falls in the pass. *)
Record Tick : Type := mkTick {
  alive : list bool;
  interrupt_at_condition : bool;
  obs_at_condition : Z;
  obs_in_body : Z;
  interrupt : option Interrupt
}.

(** Everything [train] reads from outside: the random generator, whether
    the log directory holds a checkpoint, the observation counter after
    initialisation, the value an earlier call left in [self.request_stop],
    what the loop polls, and, when a [KeyboardInterrupt] is raised during
    lines 148-152, how many of their effects were done before it.
    Interrupts are followed from line 131 on; the set-up is taken to run
    undisturbed. *)
Record World : Type := mkWorld {
  rand : Rng;
  latest_checkpoint : bool;
  obs_counter_at_start : Z;
  request_stop_before : bool;
  ticks : list Tick;
  shutdown_interrupt : option nat
}.

(** [random.choice(seq)] at draw [i]. *)
Definition random_choice {A : Type} (rand : Rng) (i : nat) (seq : list A)
  : result A :=
  match nth_error seq (randbelow rand i (length seq)) with
  | Some x => ret x
  | None => raise (IndexError "Cannot choose from an empty sequence")
  end.

(** Lines 89-112, for learners [t], [t+1], ... ([remaining] of them). *)
Fixpoint create_learners (rand : Rng) (pool : list Q) (t remaining : nat)
  : result (list Event) :=
  match remaining with
  | O => ret []
  | S remaining' =>
      eps_min <- random_choice rand t pool ;;
      later <- create_learners rand pool (S t) remaining' ;;
      ret ([LogSampledEpsilon eps_min t; CreatePolicy t eps_min; EnvCopy t;
            CreateLearner t] ++ later)
  end.

(** The state of the supervision loop. *)
Record Loop : Type := mkLoop {
  last_log_step : Z;
  last_target_update : Z;
  request_stop : bool;
  trace : list Event
}.

Definition emit (st : Loop) (evs : list Event) : Loop :=
  mkLoop (last_log_step st) (last_target_update st) (request_stop st)
    (trace st ++ evs).

(** The commands of the [try] body; a [KeyboardInterrupt] falls between two
    of them. *)
Inductive Cmd : Type :=
| CRender (t : nat)
| CSleep
| CReadStep
| CMarkLog (step : Z)
| CWriteSummary
| CSaveWeights
| CMarkTarget (step : Z)
| CTargetUpdate.

(** Lines 133-144, with [step] the counter value the body reads. *)
Definition try_body (a : Args) (threads : nat) (st : Loop) (step : Z)
  : list Cmd :=
  (if render a then map CRender (seq 0 threads) ++ [CSleep] else [])
  ++ [CReadStep]
  ++ (if log_freq a <=? step - last_log_step st
      then [CMarkLog step; CWriteSummary; CSaveWeights] else [])
  ++ (if target_freq a <=? step - last_target_update st
      then [CMarkTarget step; CTargetUpdate] else []).

Definition exec (a : Args) (st : Loop) (c : Cmd) : Loop :=
  match c with
  | CRender t => emit st [Render t]
  | CSleep => emit st [Sleep]
  | CReadStep => st
  | CMarkLog step =>
      mkLoop step (last_target_update st) (request_stop st) (trace st)
  | CWriteSummary => emit st [WriteSummary]
  | CSaveWeights => emit st [SaveWeights (log_dir a)]
  | CMarkTarget step =>
      mkLoop (last_log_step st) step (request_stop st) (trace st)
  | CTargetUpdate => emit st [TargetUpdate]
  end.

(** Lines 145-147: the handler. *)
Definition on_keyboard_interrupt (st : Loop) : Loop :=
  mkLoop (last_log_step st) (last_target_update st) true
    (trace st ++ [LogInfo "Caught Ctrl+C! Stopping training process."]).

(** Whether the tick's interrupt cuts the [try] body short. *)
Definition interrupted (a : Args) (threads : nat) (st : Loop) (tk : Tick)
  : bool :=
  match interrupt tk with
  | Some (InTry done) | Some (InHandler done _) =>
      (done <? length (try_body a threads st (obs_in_body tk)))%nat
  | None => false
  end.

(** The state one pass through the loop body (lines 132-147) leaves.  An
    interrupt inside the [try] runs the handler; one that finds the body
    already complete changes nothing here; a handler that is interrupted
    itself leaves at most its log line, and the flag as it was. *)
Definition loop_body (a : Args) (threads : nat) (st : Loop) (tk : Tick)
  : Loop :=
  let cmds := try_body a threads st (obs_in_body tk) in
  match interrupt tk with
  | Some (InTry done) =>
      if (done <? length cmds)%nat
      then on_keyboard_interrupt (fold_left (exec a) (firstn done cmds) st)
      else fold_left (exec a) cmds st
  | Some (InHandler done logged) =>
      if (done <? length cmds)%nat
      then emit (fold_left (exec a) (firstn done cmds) st)
             (if logged
              then [LogInfo "Caught Ctrl+C! Stopping training process."]
              else [])
      else fold_left (exec a) cmds st
  | None => fold_left (exec a) cmds st
  end.

(** Whether the pass ends with the [KeyboardInterrupt] on its way out of
    [train]: it was raised after the [try] statement, or inside the
    handler. *)
Definition propagates (a : Args) (threads : nat) (st : Loop) (tk : Tick)
  : bool :=
  match interrupt tk with
  | Some (InTry done) =>
      (length (try_body a threads st (obs_in_body tk)) <=? done)%nat
  | Some (InHandler _ _) => true
  | None => false
  end.

(** [has_live_threads() and self.obs_counter < steps] *)
Definition has_live_threads (tk : Tick) : bool := existsb (fun b => b) (alive tk).

Definition loop_condition (a : Args) (tk : Tick) : bool :=
  has_live_threads tk && (obs_at_condition tk <? steps a).

(** The supervision loop over the ticks it is given: [Exited] when the
    condition failed at some tick, [Pending] when the ticks end with the
    loop still running, [Escaped] when a [KeyboardInterrupt] was raised
    where no handler is in reach. *)
Inductive Polled : Type :=
| Exited (st : Loop)
| Pending (st : Loop)
| Escaped (st : Loop).

Fixpoint supervise (a : Args) (threads : nat) (tks : list Tick) (st : Loop)
  : Polled :=
  match tks with
  | [] => Pending st
  | tk :: later =>
      if interrupt_at_condition tk then Escaped st
      else if loop_condition a tk
      then
        if propagates a threads st tk
        then Escaped (loop_body a threads st tk)
        else supervise a threads later (loop_body a threads st tk)
      else Exited st
  end.

(** The state a run of the loop stands in, however it ended. *)
Definition polled_state (p : Polled) : Loop :=
  match p with
  | Exited st => st
  | Pending st => st
  | Escaped st => st
  end.

(** A poll whose interrupt, if there is one, is in reach of the handler:
    not at the loop condition, and inside the [try] whatever the marks are. *)
Definition in_reach (a : Args) (threads : nat) (tk : Tick) : Prop :=
  interrupt_at_condition tk = false
  /\ forall st, propagates a threads st tk = false.

(** The events of the final sequence: the last save and the closes. *)
Definition finishing (e : Event) : bool :=
  match e with
  | SaveWeights _ | WriterClose | LearnerClose _ => true
  | _ => false
  end.

Inductive Outcome : Type :=
| Returned
| Raised (e : Exception)
| StillRunning.

(** Lines 148-152. *)
Definition shutdown (a : Args) (threads : nat) : list Event :=
  [SaveWeights (log_dir a); LogInfo "Training finished!"; WriterClose]
  ++ map LearnerClose (seq 0 threads).

(** Lines 148-152 with a [KeyboardInterrupt] after [done] of their
    effects: they are not in a [finally], so the rest is not done.  [None]
    when the interrupt comes after the last of them, that is after [train]
    returned. *)
Definition cut_shutdown (a : Args) (threads : nat) (at_ : option nat)
  : option (list Event) :=
  match at_ with
  | Some done =>
      if (done <? length (shutdown a threads))%nat
      then Some (firstn done (shutdown a threads))
      else None
  | None => None
  end.

(** [train]: the outcome, the events so far and [self.request_stop].  The
    flag keeps the value it came with until line 123 clears it, after the
    threads were started. *)
Definition train (a : Args) (w : World) : Outcome * list Event * bool :=
  if num_threads a <? 1
  then (Raised (ValueError ("Number of threads must be >= 1 (Got: "
                              ++ str_of_Z (num_threads a) ++ ")."))%string,
        [], request_stop_before w)
  else
    let threads := Z.to_nat (num_threads a) in
    match create_learners (rand w) (epsilon_pool a) 0 threads with
    | inl e => (Raised e, [BuildTrainGraph], request_stop_before w)
    | inr created =>
        let setup :=
          [BuildTrainGraph] ++ created
          ++ [CreateWriter (log_dir a); InitVariables]
          ++ (if negb (log_dir a =? "")%string && latest_checkpoint w
              then [LoadWeights (log_dir a)] else [])
          ++ map StartThread (seq 0 threads) in
        let st0 := mkLoop (obs_counter_at_start w) (obs_counter_at_start w)
                     false setup in
        match supervise a threads (ticks w) st0 with
        | Pending st => (StillRunning, trace st, request_stop st)
        | Escaped st => (Raised KeyboardInterrupt, trace st, request_stop st)
        | Exited st =>
            match cut_shutdown a threads (shutdown_interrupt w) with
            | Some done =>
                (Raised KeyboardInterrupt, trace st ++ done, request_stop st)
            | None =>
                (Returned, trace st ++ shutdown a threads, request_stop st)
            end
        end
    end.

(** [train_on_batch(self, obs, actions, rewards, summarize=False)]: refuses,
    and touches nothing. *)
Definition train_on_batch {Agent Obs Action : Type} (agent : Agent)
  (obs : list Obs) (actions : list Action) (rewards : list Q)
  (summarize : bool) : result unit * Agent :=
  (raise (NotImplementedError
            "Training on batch is not supported. Use `train` method instead."),
   agent).

(** A run of two learners: the first poll is interrupted before the body
    did anything, the second finds both learners dead. *)
Definition two_threads : Args :=
  mkArgs 2 500 "logs" [0.1; 0.01; 0.5]%Q 100 100 false.

Definition interrupted_run : World :=
  mkWorld (fun i => i) true 0 false
    [mkTick [true; true] false 0 0 (Some (InTry 0));
     mkTick [false; false] false 3 3 None]
    None.

(** The same run with the Ctrl+C arriving a moment earlier or later: while
    the first poll evaluates the loop condition; or during the final
    [save_weights], after the loop was left. *)
Definition interrupted_at_condition : World :=
  mkWorld (fun i => i) true 0 false
    [mkTick [true; true] true 0 0 None; mkTick [false; false] false 3 3 None]
    None.

Definition interrupted_at_save : World :=
  mkWorld (fun i => i) true 0 false
    [mkTick [false; false] false 3 3 None]
    (Some 0%nat).

(** A run that ends because the step budget is used up, with no interrupt,
    on an agent whose previous call left [request_stop] set. *)
Definition budget_run : World :=
  mkWorld (fun i => i) false 0 true
    [mkTick [true; true] false 0 0 None;
     mkTick [true; true] false 500 500 None]
    None.

End AsyncDQNAgent.

(** * Properties *)

(** ** Lists: what a bounded deque keeps, and picks without replacement *)

Section ListFacts.
Context {A : Type}.

Lemma skipn_succ_tl (n : nat) (l : list A) : skipn (S n) l = tl (skipn n l).
Proof.
  revert l; induction n as [|n IH]; intros [|x l]; try reflexivity.
  change (skipn (S (S n)) (x :: l)) with (skipn (S n) l).
  change (skipn (S n) (x :: l)) with (skipn n l).
  apply IH.
Qed.

Lemma keep_length (cap : nat) (l : list A) :
  length (Deque.keep cap l) = Nat.min cap (length l).
Proof. unfold Deque.keep; rewrite length_skipn; lia. Qed.

Lemma append_keep (cap : nat) (l : list A) (x : A) :
  Deque.append (Z.of_nat cap) (Deque.keep cap l) x = Deque.keep cap (l ++ [x]).
Proof.
  unfold Deque.append.
  rewrite length_app, keep_length; cbn [length].
  destruct (Z.ltb_spec (Z.of_nat cap) (Z.of_nat (Nat.min cap (length l) + 1)))
    as [Hfull | Hroom].
  - assert (Hle : (cap <= length l)%nat) by lia.
    unfold Deque.keep; rewrite length_app; cbn [length].
    replace (length l + 1 - cap)%nat with (S (length l - cap)) by lia.
    rewrite skipn_succ_tl, skipn_app.
    replace (length l - cap - length l)%nat with 0%nat by lia.
    reflexivity.
  - assert (Hlt : (length l < cap)%nat) by lia.
    unfold Deque.keep; rewrite length_app; cbn [length].
    replace (length l - cap)%nat with 0%nat by lia.
    replace (length l + 1 - cap)%nat with 0%nat by lia.
    reflexivity.
Qed.

Lemma nth_set_nth_perm (d y : A) (l : list A) (j : nat) :
  (j < length l)%nat -> Permutation (nth j l d :: set_nth j y l) (y :: l).
Proof.
  revert j; induction l as [|h t IH]; intros j Hj; cbn [length] in Hj.
  - lia.
  - destruct j as [|j]; cbn [nth set_nth].
    + apply perm_swap.
    + eapply perm_trans; [apply perm_swap|].
      eapply perm_trans; [apply perm_skip, IH; lia|].
      apply perm_swap.
Qed.

Lemma set_nth_length (j : nat) (y : A) (l : list A) :
  length (set_nth j y l) = length l.
Proof.
  revert j; induction l as [|h t IH]; intros [|j]; cbn; auto.
Qed.

Lemma set_nth_app_l (j : nat) (y : A) (l r : list A) :
  (j < length l)%nat -> set_nth j y (l ++ r) = set_nth j y l ++ r.
Proof.
  revert j; induction l as [|h t IH]; intros j Hj; cbn [length] in Hj.
  - lia.
  - destruct j as [|j]; cbn; [reflexivity|].
    rewrite IH by lia; reflexivity.
Qed.

Lemma set_nth_last (y : A) (l : list A) (x : A) :
  set_nth (length l) y (l ++ [x]) = l ++ [y].
Proof. induction l as [|h t IH]; cbn; [reflexivity|now rewrite IH]. Qed.

(** One pick: the picked entry and the shrunk pool hold what the pool held. *)
Lemma pick_perm (d : A) (pool : list A) (j : nat) :
  (j < length pool)%nat ->
  Permutation
    (nth j pool d
       :: firstn (length pool - 1) (set_nth j (last pool d) pool))
    pool.
Proof.
  intros Hj.
  assert (Hne : pool <> []) by (destruct pool; cbn in Hj; [lia|discriminate]).
  destruct (exists_last Hne) as (front & lst & ->).
  rewrite last_last, length_app in *; cbn [length] in *.
  replace (length front + 1 - 1)%nat with (length front) by lia.
  destruct (Nat.eq_dec j (length front)) as [-> | Hneq].
  - rewrite nth_middle, set_nth_last, firstn_app, firstn_all, Nat.sub_diag.
    cbn [firstn]; rewrite app_nil_r.
    apply Permutation_cons_append.
  - assert (Hlt : (j < length front)%nat) by lia.
    rewrite app_nth1, set_nth_app_l by assumption.
    rewrite firstn_app, set_nth_length, Nat.sub_diag; cbn [firstn].
    rewrite app_nil_r.
    rewrite <- (set_nth_length j lst front) at 1; rewrite firstn_all.
    eapply perm_trans; [apply nth_set_nth_perm; assumption|].
    apply Permutation_cons_append.
Qed.

Lemma sample_pool_length (rand : Rng) (k : nat) :
  forall (i : nat) (pool : list A),
    (k <= length pool)%nat -> length (sample_pool rand i k pool) = k.
Proof.
  induction k as [|k IH]; intros i pool Hk; [reflexivity|].
  destruct pool as [|d pool']; [cbn in Hk; lia|].
  cbn [sample_pool length]; f_equal.
  apply IH.
  rewrite length_firstn, set_nth_length; cbn [length] in *; lia.
Qed.

Lemma sample_pool_perm (rand : Rng) (k : nat) :
  forall (i : nat) (pool : list A),
    (k <= length pool)%nat ->
    exists rest, Permutation (sample_pool rand i k pool ++ rest) pool.
Proof.
  induction k as [|k IH]; intros i pool Hk.
  - exists pool; reflexivity.
  - destruct pool as [|d pool']; [cbn in Hk; lia|].
    set (pool := d :: pool') in *.
    assert (Hpos : (0 < length pool)%nat) by (cbn; lia).
    set (j := randbelow rand i (length pool)).
    assert (Hj : (j < length pool)%nat)
      by (apply Nat.mod_upper_bound; lia).
    set (pool1 := firstn (length pool - 1) (set_nth j (last pool d) pool)).
    destruct (IH (S i) pool1) as [rest Hrest].
    { unfold pool1; rewrite length_firstn, set_nth_length; lia. }
    exists rest.
    change (sample_pool rand i (S k) pool)
      with (nth j pool d :: sample_pool rand (S i) k pool1).
    cbn [app].
    eapply perm_trans; [apply perm_skip, Hrest|].
    apply pick_perm; assumption.
Qed.

End ListFacts.

(** ** The replay buffer *)

Module ReplayFacts.
Import ExperienceReplay.

Section Replay.
Context {A : Type}.

(** What the constructor decides: it refuses [min_size < batch_size] and a
    negative capacity, and otherwise builds the empty buffer. *)
Lemma init_inversion (capacity requested batch : Z) (er : t A) :
  init A capacity requested batch = inr er ->
  batch <= requested /\ 0 <= capacity
  /\ er = mk [] capacity batch (Z.min (capacity - batch) requested).
Proof.
  unfold init, Deque.new, bind, raise, ret.
  destruct (Z.ltb_spec requested batch); [discriminate|].
  destruct (Z.ltb_spec capacity 0); [discriminate|].
  intros [= <-]; auto.
Qed.

Lemma init_accepts (capacity requested batch : Z) :
  batch <= requested -> 0 <= capacity ->
  init A capacity requested batch
  = inr (mk [] capacity batch (Z.min (capacity - batch) requested)).
Proof.
  intros Hb Hc; unfold init, Deque.new, bind, raise, ret.
  destruct (Z.ltb_spec requested batch); [lia|].
  destruct (Z.ltb_spec capacity 0); [lia|reflexivity].
Qed.

Lemma add_all_fields (er : t A) (vs : list A) :
  maxlen (add_all er vs) = maxlen er
  /\ batch_size (add_all er vs) = batch_size er
  /\ min_size (add_all er vs) = min_size er.
Proof.
  revert er; induction vs as [|v vs IH]; intros er; [auto|].
  change (add_all er (v :: vs)) with (add_all (add er v) vs).
  destruct (IH (add er v)) as (-> & -> & ->); auto.
Qed.

(** The buffer holds the last [cap] of everything it was given. *)
Lemma add_all_memory (cap : nat) (vs : list A) :
  forall (er : t A) (given : list A),
    maxlen er = Z.of_nat cap ->
    memory er = Deque.keep cap given ->
    memory (add_all er vs) = Deque.keep cap (given ++ vs).
Proof.
  induction vs as [|v vs IH]; intros er given Hcap Hmem.
  - rewrite app_nil_r; exact Hmem.
  - change (add_all er (v :: vs)) with (add_all (add er v) vs).
    replace (given ++ v :: vs) with ((given ++ [v]) ++ vs)
      by (rewrite <- app_assoc; reflexivity).
    apply IH; [exact Hcap|].
    cbn [add memory]; rewrite Hcap, Hmem; apply append_keep.
Qed.

Lemma fresh_memory (capacity requested batch : Z) (er : t A) (vs : list A) :
  init A capacity requested batch = inr er ->
  memory (add_all er vs) = Deque.keep (Z.to_nat capacity) vs.
Proof.
  intros Hinit; destruct (init_inversion _ _ _ _ Hinit) as (_ & Hc & ->).
  apply (add_all_memory (Z.to_nat capacity) vs _ []); cbn; [lia|reflexivity].
Qed.

Lemma fresh_size (capacity requested batch : Z) (er : t A) (vs : list A) :
  init A capacity requested batch = inr er ->
  size (add_all er vs) = Z.min capacity (Z.of_nat (length vs)).
Proof.
  intros Hinit; unfold size; rewrite (fresh_memory _ _ _ _ _ Hinit), keep_length.
  destruct (init_inversion _ _ _ _ Hinit) as (_ & Hc & _); lia.
Qed.

Lemma NoDup_app_disjoint (l1 l2 : list A) (x : A) :
  NoDup (l1 ++ l2) -> In x l1 -> ~ In x l2.
Proof.
  induction l1 as [|h t IH]; cbn; intros Hnd Hin; [contradiction|].
  inversion Hnd as [|? ? Hnotin Hnd']; subst.
  destruct Hin as [-> | Hin]; [|now apply IH].
  intros Hx; apply Hnotin, in_or_app; now right.
Qed.

(** C5 (as amended) - For every ExperienceReplay accepted by the constructor
    with [0 <= batch_size <= capacity], whenever [is_ready] holds, [sample()]
    succeeds and returns exactly [batch_size] entries taken from pairwise
    distinct positions of the buffer: together with the entries left over
    they are a rearrangement of the buffer, every one of them is present in
    the buffer, and they are pairwise distinct values when the buffer holds
    no value twice. *)
Theorem sample_when_ready
  (capacity requested batch : Z) (er0 : t A) (vs : list A) (rand : Rng) :
  init A capacity requested batch = inr er0 ->
  0 <= batch <= capacity ->
  is_ready (add_all er0 vs) = true ->
  exists picked : list A,
    sample rand (add_all er0 vs) = inr picked
    /\ Z.of_nat (length picked) = batch
    /\ (exists rest, Permutation (picked ++ rest) (memory (add_all er0 vs)))
    /\ incl picked (memory (add_all er0 vs))
    /\ (NoDup (memory (add_all er0 vs)) -> NoDup picked).
Proof.
  intros Hinit Hbatch Hready.
  destruct (init_inversion _ _ _ _ Hinit) as (Hreq & Hcap & ->).
  destruct (add_all_fields (mk [] capacity batch
                              (Z.min (capacity - batch) requested)) vs)
    as (_ & Hbs & Hms).
  cbn [batch_size min_size] in Hbs, Hms.
  unfold is_ready in Hready; apply Z.leb_le in Hready.
  rewrite Hbs, Hms in Hready; unfold size in Hready.
  set (mem := memory (add_all _ vs)) in *.
  assert (Hfit : (Z.to_nat batch <= length mem)%nat) by lia.
  exists (sample_pool rand 0 (Z.to_nat batch) mem).
  destruct (sample_pool_perm rand (Z.to_nat batch) 0%nat mem Hfit)
    as [rest Hperm].
  repeat split.
  - unfold sample, random_sample; fold mem; rewrite Hbs.
    destruct (Z.leb_spec 0 batch); [|lia].
    destruct (Z.leb_spec batch (Z.of_nat (length mem))); [|lia].
    reflexivity.
  - rewrite sample_pool_length by exact Hfit; lia.
  - exists rest; exact Hperm.
  - intros x Hx; apply (Permutation_in x Hperm), in_or_app; now left.
  - intros Hnd; apply Permutation_sym in Hperm.
    eapply NoDup_app_remove_r, Permutation_NoDup; eassumption.
Qed.

(** C6 - For every ExperienceReplay the constructor builds from [capacity],
    [min_size >= batch_size] and [batch_size], and every [k > 0]: while
    [capacity + k] elements are added the size never exceeds [capacity];
    afterwards the buffer holds exactly the elements after the oldest [k]
    (which are absent when no element was added twice); and at every moment
    [is_ready] is true exactly when [size >= min_size + batch_size] for the
    buffer's stored [min_size]. *)
Theorem fifo_eviction
  (capacity requested batch : Z) (er0 : t A) (k : nat) (vs : list A) :
  init A capacity requested batch = inr er0 ->
  (0 < k)%nat ->
  length vs = (Z.to_nat capacity + k)%nat ->
  requested >= batch
  /\ (forall n : nat, 0 <= size (add_all er0 (firstn n vs)) <= capacity)
  /\ memory (add_all er0 vs) = skipn k vs
  /\ size (add_all er0 vs) = capacity
  /\ (NoDup vs ->
      forall x, In x (firstn k vs) -> ~ In x (memory (add_all er0 vs)))
  /\ (forall n : nat,
        let er := add_all er0 (firstn n vs) in
        is_ready er = true <-> size er >= min_size er + batch_size er).
Proof.
  intros Hinit Hk Hlen.
  destruct (init_inversion _ _ _ _ Hinit) as (Hreq & Hcap & _).
  assert (Hmem : memory (add_all er0 vs) = skipn k vs).
  { rewrite (fresh_memory _ _ _ _ _ Hinit); unfold Deque.keep.
    f_equal; lia. }
  repeat split.
  - lia.
  - unfold size; lia.
  - rewrite (fresh_size _ _ _ _ _ Hinit); lia.
  - exact Hmem.
  - rewrite (fresh_size _ _ _ _ _ Hinit); lia.
  - intros Hnd x Hx; rewrite Hmem.
    rewrite <- (firstn_skipn k vs) in Hnd.
    now apply (NoDup_app_disjoint _ _ x Hnd).
  - unfold is_ready; intros H; apply Z.leb_le in H; lia.
  - unfold is_ready; intros H; apply Z.leb_le; lia.
Qed.

(** C7 - For every construction of ExperienceReplay with requested
    [min_size >= batch_size], the stored [min_size] equals
    [min(capacity - batch_size, requested min_size)] (the constructor
    refusing only a negative capacity); in particular [capacity=10],
    [batch_size=4], [min_size=9] gives the stored [min_size = 6]. *)
Theorem min_size_clamp (capacity requested batch : Z) :
  requested >= batch ->
  match init A capacity requested batch with
  | inr er => min_size er = Z.min (capacity - batch) requested
  | inl _ => capacity < 0
  end
  /\ (exists er : t A, init A 10 9 4 = inr er /\ min_size er = 6).
Proof.
  intros Hreq; split.
  - destruct (Z.ltb_spec capacity 0) as [Hneg | Hpos].
    + destruct (init A capacity requested batch) as [e | er] eqn:Hinit;
        [exact Hneg|].
      destruct (init_inversion _ _ _ _ Hinit) as (_ & Hc & _); lia.
    + rewrite init_accepts by lia; reflexivity.
  - eexists; split; reflexivity.
Qed.

(** C10 - The constructor accepts a capacity smaller than [batch_size]
    (when the requested [min_size >= batch_size]); the stored [min_size] is
    then negative, [is_ready] is true as soon as [capacity] elements were
    added, with fewer than [batch_size] elements present, and [sample()]
    then raises [ValueError] although [is_ready] holds. *)
Theorem small_capacity_ready_but_unsampleable
  (capacity requested batch : Z) :
  0 <= capacity < batch ->
  batch <= requested ->
  exists er0 : t A,
    init A capacity requested batch = inr er0
    /\ min_size er0 < 0
    /\ forall vs : list A,
        (Z.to_nat capacity <= length vs)%nat ->
        is_ready (add_all er0 vs) = true
        /\ size (add_all er0 vs) < batch
        /\ forall rand : Rng,
            sample rand (add_all er0 vs)
            = inl (ValueError "Sample larger than population or is negative").
Proof.
  intros Hcap Hreq.
  pose proof (init_accepts capacity requested batch Hreq (proj1 Hcap)) as Hinit.
  eexists; split; [exact Hinit|].
  split; [cbn [min_size]; lia|].
  intros vs Hlen.
  pose proof (fresh_size _ _ _ _ vs Hinit) as Hsize.
  destruct (add_all_fields (mk [] capacity batch
                              (Z.min (capacity - batch) requested)) vs)
    as (_ & Hbs & Hms).
  cbn [batch_size min_size] in Hbs, Hms.
  repeat split.
  - unfold is_ready; rewrite Hbs, Hms, Hsize; apply Z.leb_le; lia.
  - lia.
  - intros rand; unfold sample, random_sample; rewrite Hbs.
    unfold size in Hsize; rewrite Hsize.
    destruct (Z.leb_spec 0 batch); [|lia].
    destruct (Z.leb_spec batch (Z.min capacity (Z.of_nat (length vs))));
      [lia|reflexivity].
Qed.

End Replay.

(** C5 as stated fails: a buffer of capacity 3 with [batch_size = 4] is
    accepted, is ready once it is full, and cannot be sampled; and a ready
    buffer that holds a value twice can return it twice. *)
Lemma sample_when_ready_counterexample :
  (init nat 3 4 4 = inr (mk [] 3 4 (-1))
   /\ is_ready (add_all (mk [] 3 4 (-1)) [1; 2; 3]%nat) = true
   /\ ~ exists picked : list nat,
         sample (fun _ => 0%nat) (add_all (mk [] 3 4 (-1)) [1; 2; 3]%nat)
         = inr picked)
  /\ (init nat 4 2 2 = inr (mk [] 4 2 2)
      /\ is_ready (add_all (mk [] 4 2 2) [7; 9; 9; 7]%nat) = true
      /\ sample (fun _ => 0%nat) (add_all (mk [] 4 2 2) [7; 9; 9; 7]%nat)
         = inr [7; 7]%nat
      /\ ~ NoDup [7; 7]%nat).
Proof.
  split.
  - split; [reflexivity|]; split; [reflexivity|].
    intros [picked H]; discriminate H.
  - repeat (split; [reflexivity|]).
    intros H; inversion H as [|x l Hnotin _]; apply Hnotin; now left.
Qed.

Lemma sample_when_ready_witness :
  init nat 3 2 2 = inr (mk [] 3 2 1)
  /\ 0 <= 2 <= 3
  /\ is_ready (add_all (mk [] 3 2 1) [7; 8; 9]%nat) = true
  /\ exists picked : list nat,
      sample (fun i => (5 * i + 4)%nat) (add_all (mk [] 3 2 1) [7; 8; 9]%nat)
      = inr picked
      /\ Z.of_nat (length picked) = 2
      /\ (exists rest,
            Permutation (picked ++ rest)
              (memory (add_all (mk [] 3 2 1) [7; 8; 9]%nat)))
      /\ incl picked (memory (add_all (mk [] 3 2 1) [7; 8; 9]%nat))
      /\ (NoDup (memory (add_all (mk [] 3 2 1) [7; 8; 9]%nat))
          -> NoDup picked).
Proof.
  split; [reflexivity|]; split; [lia|]; split; [reflexivity|].
  apply (sample_when_ready 3 2 2 (mk [] 3 2 1) [7; 8; 9]%nat
           (fun i => (5 * i + 4)%nat));
    [reflexivity | lia | reflexivity].
Defined.

Lemma fifo_eviction_witness :
  init nat 3 2 1 = inr (mk [] 3 1 2)
  /\ (0 < 2)%nat
  /\ length [1; 2; 3; 4; 5]%nat = (Z.to_nat 3 + 2)%nat
  /\ memory (add_all (mk [] 3 1 2) [1; 2; 3; 4; 5]%nat) = [3; 4; 5]%nat.
Proof.
  split; [reflexivity|]; split; [lia|]; split; [reflexivity|].
  apply (fifo_eviction 3 2 1 (mk [] 3 1 2) 2 [1; 2; 3; 4; 5]%nat);
    [reflexivity | lia | reflexivity].
Defined.

Lemma min_size_clamp_witness :
  9 >= 4
  /\ match init nat 10 9 4 with
     | inr er => min_size er = Z.min (10 - 4) 9
     | inl _ => 10 < 0
     end.
Proof.
  split; [lia|].
  apply (min_size_clamp (A := nat) 10 9 4); lia.
Defined.

Lemma small_capacity_ready_but_unsampleable_witness :
  0 <= 3 < 4 /\ 4 <= 4
  /\ exists er0 : t nat,
      init nat 3 4 4 = inr er0
      /\ min_size er0 < 0
      /\ forall vs : list nat,
          (Z.to_nat 3 <= length vs)%nat ->
          is_ready (add_all er0 vs) = true
          /\ size (add_all er0 vs) < 4
          /\ forall rand : Rng,
              sample rand (add_all er0 vs)
              = inl (ValueError "Sample larger than population or is negative").
Proof.
  split; [lia|]; split; [lia|].
  apply (small_capacity_ready_but_unsampleable (A := nat) 3 4 4); lia.
Defined.

End ReplayFacts.

(** ** Discounted returns *)

Module ReturnFacts.
Open Scope Q_scope.

Lemma discount_loop_app (gamma bootstrap : Q) (xs ys : list Q) :
  forall running returns,
    running = hd bootstrap returns ->
    discount_loop gamma (xs ++ ys) running returns
    = discount_loop gamma ys
        (hd bootstrap (discount_loop gamma xs running returns))
        (discount_loop gamma xs running returns).
Proof.
  induction xs as [|x xs IH]; intros running returns Hrun; cbn.
  - now rewrite Hrun.
  - now apply IH.
Qed.

Lemma discount_rewards_unfold (gamma bootstrap : Q) (rewards : list Q) :
  discount_rewards rewards gamma bootstrap
  = returns_from gamma bootstrap rewards.
Proof.
  unfold discount_rewards.
  induction rewards as [|r t IH]; [reflexivity|].
  cbn [rev returns_from].
  rewrite (discount_loop_app gamma bootstrap) by reflexivity.
  rewrite IH; reflexivity.
Qed.

Lemma returns_from_length (gamma bootstrap : Q) (rewards : list Q) :
  length (returns_from gamma bootstrap rewards) = length rewards.
Proof. induction rewards as [|r t IH]; cbn; congruence. Qed.

Lemma returns_from_hd (gamma bootstrap : Q) (rewards : list Q) :
  hd bootstrap (returns_from gamma bootstrap rewards)
  = if (0 <? length rewards)%nat
    then nth 0 (returns_from gamma bootstrap rewards) 0
    else bootstrap.
Proof. destruct rewards; reflexivity. Qed.

(** C2 - For every batch of rewards [r0..rn-1], discount factor [gamma] and
    bootstrap value [b], [discount_rewards] gives [n] returns that satisfy
    the backward recurrence: the last return is [r_{n-1} + gamma*b] and each
    earlier return is [r_i + gamma*return[i+1]]; rewards [1,1,1] with
    [gamma = 0.9] and [b = 0] give the returns [2.71, 1.9, 1.0]. *)
Theorem discount_recurrence
  (rewards : list Q) (gamma b : Q) (i : nat) :
  (i < length rewards)%nat ->
  let returns := discount_rewards rewards gamma b in
  length returns = length rewards
  /\ nth i returns 0
     = nth i rewards 0
       + gamma * (if (S i <? length rewards)%nat
                  then nth (S i) returns 0
                  else b)
  /\ Forall2 Qeq (discount_rewards [1; 1; 1] 0.9 0) [2.71; 1.9; 1.0].
Proof.
  intros Hi returns; unfold returns; clear returns.
  rewrite discount_rewards_unfold.
  split; [apply returns_from_length|]; split.
  - revert i Hi; induction rewards as [|r t IH]; intros i Hi;
      cbn [length] in Hi; [lia|].
    destruct i as [|i].
    + cbn [returns_from nth]; rewrite returns_from_hd; reflexivity.
    + cbn [returns_from nth length].
      change (S (S i) <? S (length t))%nat with (S i <? length t)%nat.
      apply IH; lia.
  - repeat constructor.
Qed.

Lemma discount_recurrence_witness :
  (0 < length [1; 1; 1])%nat
  /\ nth 0 (discount_rewards [1; 1; 1] 0.9 0) 0
     = 1 + 0.9 * nth 1 (discount_rewards [1; 1; 1] 0.9 0) 0.
Proof.
  split; [cbn; lia|].
  apply (discount_recurrence [1; 1; 1] 0.9 0 0); cbn; lia.
Defined.

Close Scope Q_scope.
End ReturnFacts.

(** ** The thread learner's batch *)

Module LearnerFacts.
Import ThreadLearner.
Open Scope Q_scope.

Lemma Qmax_cases (x y : Q) : Qmax x y = x \/ Qmax x y = y.
Proof.
  unfold Qmax, GenericMinMax.gmax; destruct (x ?= y); auto.
Qed.

Lemma fold_Qmax_in (rest : list Q) :
  forall v, In (fold_left Qmax rest v) (v :: rest).
Proof.
  induction rest as [|x rest IH]; intros v; cbn [fold_left].
  - now left.
  - destruct (IH (Qmax v x)) as [H | H].
    + rewrite <- H; destruct (Qmax_cases v x) as [-> | ->];
        [now left | now right; left].
    + now right; right.
Qed.

Lemma fold_Qmax_ge_start (rest : list Q) :
  forall v, v <= fold_left Qmax rest v.
Proof.
  induction rest as [|x rest IH]; intros v; cbn [fold_left].
  - apply Qle_refl.
  - eapply Qle_trans; [apply Q.le_max_l | apply IH].
Qed.

Lemma fold_Qmax_upper (rest : list Q) :
  forall v q, In q (v :: rest) -> q <= fold_left Qmax rest v.
Proof.
  induction rest as [|x rest IH]; intros v q Hq; cbn [fold_left].
  - destruct Hq as [<- | []]; apply Qle_refl.
  - destruct Hq as [<- | [<- | Hq]].
    + eapply Qle_trans; [apply Q.le_max_l | apply fold_Qmax_ge_start].
    + eapply Qle_trans; [apply Q.le_max_r | apply fold_Qmax_ge_start].
    + apply IH; now right.
Qed.

(** [np.max] of a non-empty array is one of its entries and bounds them all. *)
Lemma np_max_spec (values : list Q) :
  values <> [] ->
  exists m, np_max values = inr m
            /\ In m values /\ (forall q, In q values -> q <= m).
Proof.
  destruct values as [|v rest]; [congruence|]; intros _.
  exists (fold_left Qmax rest v); split; [reflexivity|]; split.
  - apply fold_Qmax_in.
  - intros q; apply fold_Qmax_upper.
Qed.

Lemma np_clip_bounds (x : Q) : -1 # 1 <= np_clip x (-1 # 1) 1 <= 1.
Proof.
  unfold np_clip; split.
  - apply Q.min_glb; [apply Q.le_max_r | discriminate].
  - apply Q.le_min_r.
Qed.

Lemma np_clip_inside (x : Q) :
  -1 # 1 <= x <= 1 -> np_clip x (-1 # 1) 1 = x.
Proof.
  intros [Hlo Hhi]; unfold np_clip, Qmin, Qmax.
  unfold GenericMinMax.gmax at 1.
  destruct (x ?= -1 # 1) eqn:Hc.
  - unfold GenericMinMax.gmin; destruct (x ?= 1) eqn:Hc'; auto.
    apply Qgt_alt in Hc'; apply Qle_not_lt in Hhi; contradiction.
  - apply Qlt_alt in Hc; apply Qle_not_lt in Hlo; contradiction.
  - unfold GenericMinMax.gmin; destruct (x ?= 1) eqn:Hc'; auto.
    apply Qgt_alt in Hc'; apply Qle_not_lt in Hhi; contradiction.
Qed.

Section WithBackend.
Context {backend : Backend}.

(** The collecting loop stops for the reason the code gives: the episode
    ended or the batch is full. *)
Lemma collect_done (cfg : Config) (fuel : nat) :
  forall th b,
    (batch_size cfg <= Z.of_nat (length (batch_obs b)) + Z.of_nat fuel)%Z ->
    collecting cfg (fst (collect cfg fuel th b)) (snd (collect cfg fuel th b))
    = false.
Proof.
  induction fuel as [|fuel IH]; intros th b Hfuel; cbn [collect].
  - unfold collecting; cbn [fst snd].
    destruct (Z.ltb_spec (Z.of_nat (length (batch_obs b))) (batch_size cfg));
      [lia|apply andb_false_r].
  - destruct (collecting cfg th b) eqn:Hc; [|exact Hc].
    apply IH; cbn [collect_step snd batch_obs].
    rewrite length_app; cbn [length]; lia.
Qed.

Lemma collect_batch_done (cfg : Config) (th : Thread) :
  collecting cfg (fst (collect_batch cfg th)) (snd (collect_batch cfg th))
  = false.
Proof. unfold collect_batch; apply collect_done; cbn [batch_obs length]; lia. Qed.

Lemma collect_clipped (cfg : Config) (fuel : nat) :
  forall th b,
    Forall (fun r => -1 # 1 <= r <= 1) (batch_rewards b) ->
    Forall (fun r => -1 # 1 <= r <= 1)
      (batch_rewards (snd (collect cfg fuel th b))).
Proof.
  induction fuel as [|fuel IH]; intros th b Hb; cbn [collect]; [exact Hb|].
  destruct (collecting cfg th b); [|exact Hb].
  apply IH; cbn [collect_step snd batch_rewards].
  apply Forall_app; split; [exact Hb|].
  constructor; [apply np_clip_bounds|constructor].
Qed.

(** C3 - In the learner's run loop, for every collected batch: when the
    batch ended without termination, the bootstrap value is the maximum
    action value of the global agent's target network at the final
    observation and is added to the running max-Q average (the reward
    average and the accumulator are left alone); when it ended with
    termination, the bootstrap value is 0, the accumulated unclipped episode
    reward is added to the running episode-reward average and the
    accumulator is reset to 0. *)
Theorem bootstrap_value (th : Thread) :
  (term (vars th) = false ->
   target_predict (glob th) (obs (vars th)) <> [] ->
   exists (m : Q) (th' : Thread),
     bootstrap th = inr (m, th')
     /\ In m (target_predict (glob th) (obs (vars th)))
     /\ (forall q, In q (target_predict (glob th) (obs (vars th))) -> q <= m)
     /\ ep_q (vars th') = IncrementalAverage.add (ep_q (vars th)) m
     /\ ep_reward (vars th') = ep_reward (vars th)
     /\ reward_accum (vars th') = reward_accum (vars th))
  /\ (term (vars th) = true ->
      exists th' : Thread,
        bootstrap th = inr (0, th')
        /\ ep_reward (vars th')
           = IncrementalAverage.add (ep_reward (vars th))
               (reward_accum (vars th))
        /\ reward_accum (vars th') = 0
        /\ ep_q (vars th') = ep_q (vars th)).
Proof.
  split.
  - intros Hterm Hne.
    destruct (np_max_spec _ Hne) as (m & Hmax & Hin & Hub).
    exists m; eexists; unfold bootstrap.
    rewrite Hterm, Hmax; cbn [negb bind ret].
    repeat split; try reflexivity; assumption.
  - intros Hterm; eexists; unfold bootstrap.
    rewrite Hterm; cbn [negb ret].
    repeat split; reflexivity.
Qed.

(** C4 - For every environment step a thread learner takes, the reward
    stored in the batch is the raw reward clipped to [[-1, 1]] (5.0 is
    stored as 1.0, -3.0 as -1.0, a value within [[-1, 1]] unchanged), while
    the accumulator behind the reported average episode reward receives the
    raw, unclipped reward; every reward of a collected batch lies in
    [[-1, 1]]. *)
Theorem reward_clipping (cfg : Config) (th : Thread) (b : Batch) :
  batch_rewards (snd (collect_step th b))
  = batch_rewards b ++ [np_clip (raw_reward th) (-1 # 1) 1]
  /\ reward_accum (vars (fst (collect_step th b)))
     = reward_accum (vars th) + raw_reward th
  /\ -1 # 1 <= np_clip (raw_reward th) (-1 # 1) 1 <= 1
  /\ (-1 # 1 <= raw_reward th <= 1 ->
      np_clip (raw_reward th) (-1 # 1) 1 = raw_reward th)
  /\ np_clip 5.0 (-1 # 1) 1 = 1
  /\ np_clip (-3.0) (-1 # 1) 1 = -1 # 1
  /\ Forall (fun r => -1 # 1 <= r <= 1)
       (batch_rewards (snd (collect_batch cfg th))).
Proof.
  split; [reflexivity|]; split; [reflexivity|].
  split; [apply np_clip_bounds|]; split; [apply np_clip_inside|].
  split; [reflexivity|]; split; [reflexivity|].
  unfold collect_batch; apply collect_clipped; constructor.
Qed.

End WithBackend.

(** The counting environment, one batch from a fresh episode: three steps
    paying 1/2, 5 and 5 are stored as 1/2, 1 and 1, the accumulator adds the
    raw rewards to the 7 it starts from, and the episode has ended. *)
Example counting_batch :
  let collected :=
    collect_batch (mkConfig "ThreadLearner0" 0.9 32 100)
      (counting_thread 0 true) in
  batch_rewards (snd collected) = [1 # 2; 1; 1]
  /\ reward_accum (vars (fst collected)) = 35 # 2
  /\ term (vars (fst collected)) = true
  /\ obs_counter (glob (fst collected)) = 13%Z.
Proof. repeat split. Qed.

(** A batch cut short by [batch_size = 2] bootstraps from the target
    network, whose weight 3 values the actions 3 and 4. *)
Example counting_bootstrap :
  bootstrap
    (fst (collect_batch (mkConfig "ThreadLearner0" 0.9 2 100)
            (counting_thread 0 true)))
  = inr (4,
         mkThread
           (mkGlobal (backend := counting_backend) (1 # 4) 3 12 0 false [])
           (mkLearner (backend := counting_backend) 2%nat tt (1 # 4))
           (mkLocals (backend := counting_backend) IncrementalAverage.new
              (IncrementalAverage.mk 4 1) (25 # 2) 0 2%nat false)).
Proof. reflexivity. Qed.

Lemma bootstrap_value_witness :
  term (vars (counting_thread 1 false)) = false
  /\ target_predict (glob (counting_thread 1 false))
       (obs (vars (counting_thread 1 false))) <> []
  /\ exists m th',
      bootstrap (counting_thread 1 false) = inr (m, th')
      /\ In m (target_predict (glob (counting_thread 1 false))
                 (obs (vars (counting_thread 1 false))))
      /\ (forall q,
            In q (target_predict (glob (counting_thread 1 false))
                    (obs (vars (counting_thread 1 false)))) -> q <= m)
      /\ ep_q (vars th')
         = IncrementalAverage.add (ep_q (vars (counting_thread 1 false))) m
      /\ ep_reward (vars th') = ep_reward (vars (counting_thread 1 false))
      /\ reward_accum (vars th')
         = reward_accum (vars (counting_thread 1 false)).
Proof.
  split; [reflexivity|]; split; [discriminate|].
  apply (proj1 (bootstrap_value (counting_thread 1 false)));
    [reflexivity | discriminate].
Defined.

Lemma reward_clipping_witness :
  -1 # 1 <= raw_reward (counting_thread 0 false) <= 1
  /\ np_clip (raw_reward (counting_thread 0 false)) (-1 # 1) 1
     = raw_reward (counting_thread 0 false).
Proof.
  split; [split; discriminate|].
  apply (reward_clipping (mkConfig "ThreadLearner0" 0.99 32 100)
           (counting_thread 0 false) (mkBatch [] [] []));
    split; discriminate.
Defined.

Close Scope Q_scope.
End LearnerFacts.

(** ** The coordinator *)

Module TrainFacts.
Import AsyncDQNAgent.

Lemma random_choice_nonempty {A : Type} (rand : Rng) (i : nat) (pool : list A) :
  pool <> [] -> exists x, random_choice rand i pool = inr x.
Proof.
  intros Hne; unfold random_choice.
  destruct (nth_error pool (randbelow rand i (length pool))) eqn:Hnth;
    [eauto|].
  apply nth_error_None in Hnth.
  assert (randbelow rand i (length pool) < length pool)%nat; [|lia].
  apply Nat.mod_upper_bound; destruct pool; [congruence|discriminate].
Qed.

Lemma create_learners_ok (rand : Rng) (pool : list Q) (remaining : nat) :
  pool <> [] ->
  forall t, exists created,
    create_learners rand pool t remaining = inr created
    /\ forallb (fun e => negb (closing e)) created = true.
Proof.
  intros Hne; induction remaining as [|n IH]; intros t.
  - exists []; split; reflexivity.
  - destruct (random_choice_nonempty rand t pool Hne) as [eps Heps].
    destruct (IH (S t)) as (later & Hlater & Hopen).
    eexists; cbn [create_learners]; rewrite Heps, Hlater; cbn [bind ret].
    split; [reflexivity|]; exact Hopen.
Qed.

Lemma exec_trace (a : Args) (st : Loop) (c : Cmd) :
  exists evs, trace (exec a st c) = trace st ++ evs
              /\ forallb (fun e => negb (closing e)) evs = true
              /\ request_stop (exec a st c) = request_stop st.
Proof.
  destruct c; cbn [exec emit trace request_stop];
    try (eexists; repeat split; reflexivity);
    exists []; rewrite app_nil_r; repeat split.
Qed.

Lemma exec_all_trace (a : Args) (cmds : list Cmd) :
  forall st, exists evs,
    trace (fold_left (exec a) cmds st) = trace st ++ evs
    /\ forallb (fun e => negb (closing e)) evs = true
    /\ request_stop (fold_left (exec a) cmds st) = request_stop st.
Proof.
  induction cmds as [|c cmds IH]; intros st; cbn [fold_left].
  - exists []; rewrite app_nil_r; repeat split.
  - destruct (exec_trace a st c) as (e1 & H1 & O1 & R1).
    destruct (IH (exec a st c)) as (e2 & H2 & O2 & R2).
    exists (e1 ++ e2); rewrite H2, H1, <- app_assoc, forallb_app, O1, O2.
    repeat split; congruence.
Qed.

(** A pass through the loop body only adds events, none of them a close. *)
Lemma loop_body_trace (a : Args) (threads : nat) (st : Loop) (tk : Tick) :
  exists evs,
    trace (loop_body a threads st tk) = trace st ++ evs
    /\ forallb (fun e => negb (closing e)) evs = true.
Proof.
  unfold loop_body.
  set (cmds := try_body a threads st (obs_in_body tk)).
  destruct (exec_all_trace a cmds st) as (eall & Hall & Oall & _).
  destruct (interrupt tk) as [[done | done logged]|]; [| |eauto].
  - destruct (done <? length cmds)%nat; [|eauto].
    destruct (exec_all_trace a (firstn done cmds) st) as (evs & H & O & _).
    eexists; cbn [on_keyboard_interrupt trace].
    rewrite H, <- app_assoc; split; [reflexivity|].
    rewrite forallb_app, O; reflexivity.
  - destruct (done <? length cmds)%nat; [|eauto].
    destruct (exec_all_trace a (firstn done cmds) st) as (evs & H & O & _).
    eexists; cbn [emit trace].
    rewrite H, <- app_assoc; split; [reflexivity|].
    rewrite forallb_app, O; destruct logged; reflexivity.
Qed.



(** However the loop ends, it only added events, none of them a close. *)
Lemma supervise_open (a : Args) (threads : nat) (tks : list Tick) :
  forall st, exists evs,
    trace (polled_state (supervise a threads tks st)) = trace st ++ evs
    /\ forallb (fun e => negb (closing e)) evs = true.
Proof.
  induction tks as [|tk later IH]; intros st; cbn [supervise].
  - exists []; rewrite app_nil_r; split; reflexivity.
  - destruct (interrupt_at_condition tk);
      [exists []; rewrite app_nil_r; split; reflexivity|].
    destruct (loop_condition a tk);
      [|exists []; rewrite app_nil_r; split; reflexivity].
    destruct (loop_body_trace a threads st tk) as (e1 & H1 & O1).
    destruct (propagates a threads st tk); [cbn [polled_state]; eauto|].
    destruct (IH (loop_body a threads st tk)) as (e2 & H2 & O2).
    exists (e1 ++ e2); rewrite H2, H1, <- app_assoc, forallb_app, O1, O2.
    split; reflexivity.
Qed.


(** While every tick finds the condition true, the loop goes on. *)
Lemma supervise_pending (a : Args) (threads : nat) (tks : list Tick) :
  Forall (in_reach a threads) tks ->
  Forall (fun tk => loop_condition a tk = true) tks ->
  forall st, exists st', supervise a threads tks st = Pending st'.
Proof.
  intros Hreach Hgo; induction Hgo as [|tk later Hgo _ IH]; intros st;
    cbn [supervise]; [eauto|].
  inversion Hreach as [|? ? [Hcond Hprop] Hlater]; subst.
  rewrite Hcond, Hgo, Hprop; apply IH; exact Hlater.
Qed.



Lemma start_threads_unfinished (t n : nat) :
  forallb (fun e => negb (finishing e)) (map StartThread (seq t n)) = true.
Proof. revert t; induction n as [|n IH]; intros t; cbn; auto. Qed.

Lemma create_learners_unfinished (rand : Rng) (pool : list Q) (n : nat) :
  forall t created,
    create_learners rand pool t n = inr created ->
    forallb (fun e => negb (finishing e)) created = true.
Proof.
  induction n as [|n IH]; intros t created; cbn [create_learners].
  - intros [= <-]; reflexivity.
  - destruct (random_choice rand t pool) as [e | eps]; cbn [bind];
      [discriminate|].
    destruct (create_learners rand pool (S t) n) as [e | later] eqn:Hlater;
      cbn [bind ret]; [discriminate|].
    intros [= <-]; cbn; now apply (IH (S t)).
Qed.

(** C1 - What the code does where the claim fails.  Lines 148-152 are not
    in a [finally] and the [try] of line 132 does not cover the loop
    condition: a [KeyboardInterrupt] raised while line 131 is evaluated, or
    while the final [save_weights] of line 148 runs after the loop was left
    by its condition, leaves [train] as an exception.  The threads were
    started; no checkpoint was saved, the writer was not closed, and
    [request_stop] was not set. *)
Theorem interrupt_outside_try_escapes
  (a : Args) (w : World) (tk : Tick) (later : list Tick) :
  1 <= num_threads a ->
  epsilon_pool a <> [] ->
  ticks w = tk :: later ->
  interrupt_at_condition tk = true
  \/ (interrupt_at_condition tk = false /\ loop_condition a tk = false
      /\ shutdown_interrupt w = Some 0%nat) ->
  exists evs,
    train a w = (Raised KeyboardInterrupt, evs, false)
    /\ In (StartThread 0) evs
    /\ forallb (fun e => negb (finishing e)) evs = true.
Proof.
  intros Hthreads Hpool Hticks Hwhere.
  destruct (create_learners_ok (rand w) (epsilon_pool a)
              (Z.to_nat (num_threads a)) Hpool 0%nat)
    as (created & Hcreated & _).
  pose proof (create_learners_unfinished _ _ _ _ _ Hcreated) as Hopen.
  assert (Hvalid : (num_threads a <? 1) = false) by (apply Z.ltb_ge; lia).
  assert (Hstarted : In (StartThread 0)
                       (map StartThread (seq 0 (Z.to_nat (num_threads a))))).
  { destruct (Z.to_nat (num_threads a)) as [|n] eqn:Hn; [lia|now left]. }
  set (setup := [BuildTrainGraph] ++ created
                ++ [CreateWriter (log_dir a); InitVariables]
                ++ (if negb (log_dir a =? "")%string && latest_checkpoint w
                    then [LoadWeights (log_dir a)] else [])
                ++ map StartThread (seq 0 (Z.to_nat (num_threads a)))).
  assert (Hsetup : In (StartThread 0) setup
                   /\ forallb (fun e => negb (finishing e)) setup = true).
  { unfold setup; split.
    - apply in_or_app; right; apply in_or_app; right.
      apply in_or_app; right; apply in_or_app; right; exact Hstarted.
    - rewrite !forallb_app, Hopen, start_threads_unfinished.
      destruct (negb (log_dir a =? "")%string && latest_checkpoint w);
        reflexivity. }
  exists setup; split; [|exact Hsetup].
  unfold train; rewrite Hvalid, Hcreated, Hticks; fold setup.
  cbn [supervise].
  destruct Hwhere as [-> | (-> & -> & ->)]; [reflexivity|].
  cbn [cut_shutdown shutdown app length Nat.ltb Nat.leb firstn trace
         request_stop].
  now rewrite app_nil_r.
Qed.

(** C8 - Configuration errors fail fast with a descriptive error: [train]
    with [num_threads < 1] raises [ValueError] before any event - no graph,
    environment copy, learner, writer or thread exists - and constructing
    an ExperienceReplay with [min_size < batch_size] raises [ValueError];
    neither input is coerced into an accepted one. *)
Theorem configuration_errors_fail_fast
  (a : Args) (w : World) (A : Type) (capacity requested batch : Z) :
  (num_threads a < 1 ->
   train a w
   = (Raised (ValueError ("Number of threads must be >= 1 (Got: "
                            ++ str_of_Z (num_threads a) ++ ").")%string),
      [], request_stop_before w))
  /\ (requested < batch ->
      ExperienceReplay.init A capacity requested batch
      = inl (ValueError
               ("Minimum replay size must be higher or equal to batch size (Got: "
                  ++ str_of_Z batch ++ ")")%string)).
Proof.
  split; intros H.
  - unfold train; destruct (Z.ltb_spec (num_threads a) 1); [reflexivity|lia].
  - unfold ExperienceReplay.init.
    destruct (Z.ltb_spec requested batch); [reflexivity|lia].
Qed.

(** C9 - For every input, [train_on_batch] fails at once with a
    [NotImplementedError] whose message directs the caller to [train], on
    the asynchronous agent and on a thread learner alike, and leaves the
    state it was called on as it was. *)
Theorem train_on_batch_unsupported
  {backend : Backend} {Agent ObsT ActionT KwArgs : Type}
  (agent : Agent) (obs : list ObsT) (actions : list ActionT)
  (rewards : list Q) (summarize : bool)
  (th : ThreadLearner.Thread) (args : KwArgs) :
  (exists msg,
      train_on_batch agent obs actions rewards summarize
      = (inl (NotImplementedError msg), agent)
      /\ msg = "Training on batch is not supported. Use `train` method instead."%string
      /\ String.index 0 "Use `train`" msg <> None)
  /\ (exists msg,
        ThreadLearner.train_on_batch th args
        = (inl (NotImplementedError msg), th)
        /\ msg = "Use `AsyncDQNAgent.train`."%string
        /\ String.index 0 "AsyncDQNAgent.train" msg <> None).
Proof.
  split; eexists; (split; [reflexivity|]); split; try reflexivity; discriminate.
Qed.

Example interrupted_run_trace :
  train two_threads interrupted_run
  = (Returned,
     [BuildTrainGraph;
      LogSampledEpsilon 0.1 0; CreatePolicy 0 0.1; EnvCopy 0; CreateLearner 0;
      LogSampledEpsilon 0.01 1; CreatePolicy 1 0.01; EnvCopy 1; CreateLearner 1;
      CreateWriter "logs"; InitVariables; LoadWeights "logs";
      StartThread 0; StartThread 1;
      LogInfo "Caught Ctrl+C! Stopping training process.";
      SaveWeights "logs"; LogInfo "Training finished!"; WriterClose;
      LearnerClose 0; LearnerClose 1],
     true).
Proof. reflexivity. Qed.

(** The same run with the Ctrl+C a moment earlier: the threads run, nothing
    was saved, the writer is open. *)
Example interrupted_at_condition_trace :
  train two_threads interrupted_at_condition
  = (Raised KeyboardInterrupt,
     [BuildTrainGraph;
      LogSampledEpsilon 0.1 0; CreatePolicy 0 0.1; EnvCopy 0; CreateLearner 0;
      LogSampledEpsilon 0.01 1; CreatePolicy 1 0.01; EnvCopy 1; CreateLearner 1;
      CreateWriter "logs"; InitVariables; LoadWeights "logs";
      StartThread 0; StartThread 1],
     false).
Proof. reflexivity. Qed.

(** And with the Ctrl+C during the final [save_weights]: the loop was left
    by its condition, yet nothing was saved or closed. *)
Example interrupted_at_save_trace :
  train two_threads interrupted_at_save
  = (Raised KeyboardInterrupt,
     [BuildTrainGraph;
      LogSampledEpsilon 0.1 0; CreatePolicy 0 0.1; EnvCopy 0; CreateLearner 0;
      LogSampledEpsilon 0.01 1; CreatePolicy 1 0.01; EnvCopy 1; CreateLearner 1;
      CreateWriter "logs"; InitVariables; LoadWeights "logs";
      StartThread 0; StartThread 1],
     false).
Proof. reflexivity. Qed.

(** A refused call leaves the flag an interrupted earlier call had set. *)
Example refused_call_keeps_flag :
  train (mkArgs 0 500 "logs" [0.1]%Q 100 100 false) budget_run
  = (Raised (ValueError "Number of threads must be >= 1 (Got: 0)."), [], true).
Proof. reflexivity. Qed.

Lemma interrupt_outside_try_escapes_witness :
  1 <= num_threads two_threads
  /\ epsilon_pool two_threads <> []
  /\ interrupt_at_condition (mkTick [true; true] true 0 0 None) = true
  /\ exists evs,
      train two_threads interrupted_at_condition
      = (Raised KeyboardInterrupt, evs, false)
      /\ In (StartThread 0) evs
      /\ forallb (fun e => negb (finishing e)) evs = true.
Proof.
  assert (H1 : 1 <= num_threads two_threads) by (cbn; lia).
  assert (H2 : epsilon_pool two_threads <> []) by discriminate.
  split; [exact H1|]; split; [exact H2|]; split; [reflexivity|].
  exact (interrupt_outside_try_escapes two_threads interrupted_at_condition
           (mkTick [true; true] true 0 0 None)
           [mkTick [false; false] false 3 3 None]
           H1 H2 eq_refl (or_introl eq_refl)).
Defined.

Lemma configuration_errors_fail_fast_witness :
  num_threads (mkArgs 0 500 "logs" [0.1]%Q 100 100 false) < 1
  /\ 3 < 4
  /\ train (mkArgs 0 500 "logs" [0.1]%Q 100 100 false) interrupted_run
     = (Raised (ValueError "Number of threads must be >= 1 (Got: 0)."), [],
        false)
  /\ ExperienceReplay.init nat 10 3 4
     = inl (ValueError
              "Minimum replay size must be higher or equal to batch size (Got: 4)").
Proof.
  split; [cbn; lia|]; split; [lia|]; split.
  - apply (proj1 (configuration_errors_fail_fast
                    (mkArgs 0 500 "logs" [0.1]%Q 100 100 false)
                    interrupted_run nat 10 3 4)); cbn; lia.
  - apply (proj2 (configuration_errors_fail_fast
                    (mkArgs 0 500 "logs" [0.1]%Q 100 100 false)
                    interrupted_run nat 10 3 4)); lia.
Defined.

End TrainFacts.

(** * Further properties *)

(** ** The replay buffer, for any number of adds *)

Module ReplayMore.
Import ExperienceReplay ReplayFacts.

Section Replay.
Context {A : Type}.

(** X1 - After any run of [add] calls on a fresh buffer, the buffer holds
    the latest values, at most [capacity] of them, in the order they were
    added; its [size] and [__len__] agree and are the smaller of the
    capacity and the number of adds. *)
Theorem buffer_holds_latest
  (capacity requested batch : Z) (er0 : t A) (vs : list A) :
  init A capacity requested batch = inr er0 ->
  memory (add_all er0 vs) = skipn (length vs - Z.to_nat capacity) vs
  /\ size (add_all er0 vs) = Z.min capacity (Z.of_nat (length vs))
  /\ len (add_all er0 vs) = size (add_all er0 vs)
  /\ 0 <= size (add_all er0 vs) <= capacity
  /\ ((Z.of_nat (length vs) <= capacity) -> memory (add_all er0 vs) = vs).
Proof.
  intros Hinit.
  pose proof (fresh_memory _ _ _ _ vs Hinit) as Hmem.
  pose proof (fresh_size _ _ _ _ vs Hinit) as Hsize.
  destruct (init_inversion _ _ _ _ Hinit) as (_ & Hcap & _).
  split; [exact Hmem|]; split; [exact Hsize|]; split; [reflexivity|].
  split; [lia|].
  intros Hfew; rewrite Hmem; unfold Deque.keep.
  replace (length vs - Z.to_nat capacity)%nat with 0%nat by lia.
  reflexivity.
Qed.

(** X2 - One [add] on a buffer that was built by [add] calls: with room
    left the value goes to the end and nothing is lost; on a full buffer of
    positive capacity the oldest entry leaves and the size stays; a buffer
    of capacity 0 stays empty. *)
Theorem add_step
  (capacity requested batch : Z) (er0 : t A) (vs : list A) (v : A) :
  init A capacity requested batch = inr er0 ->
  let er := add_all er0 vs in
  (size er < capacity ->
   memory (add er v) = memory er ++ [v] /\ size (add er v) = size er + 1)
  /\ (size er = capacity -> 0 < capacity ->
      memory (add er v) = tl (memory er) ++ [v]
      /\ size (add er v) = capacity)
  /\ (capacity = 0 -> memory (add er v) = []).
Proof.
  intros Hinit er.
  destruct (init_inversion _ _ _ _ Hinit) as (_ & Hcap & Her0).
  destruct (add_all_fields er0 vs) as (Hmax & _ & _).
  assert (Hmaxlen : maxlen er = capacity)
    by (unfold er; rewrite Hmax, Her0; reflexivity).
  pose proof (fresh_size _ _ _ _ vs Hinit) as Hsize; fold er in Hsize.
  unfold size in *; cbn [add memory]; unfold Deque.append.
  rewrite Hmaxlen, length_app; cbn [length].
  repeat split.
  - destruct (Z.ltb_spec capacity (Z.of_nat (length (memory er) + 1)));
      [lia|reflexivity].
  - destruct (Z.ltb_spec capacity (Z.of_nat (length (memory er) + 1)));
      [lia|].
    rewrite length_app; cbn [length]; lia.
  - destruct (Z.ltb_spec capacity (Z.of_nat (length (memory er) + 1)));
      [|lia].
    destruct (memory er) as [|x l]; [cbn in *; lia|reflexivity].
  - destruct (Z.ltb_spec capacity (Z.of_nat (length (memory er) + 1)));
      [|lia].
    destruct (memory er) as [|x l]; [cbn in *; lia|].
    cbn [app tl]; rewrite length_app; cbn [length] in *; lia.
  - intros H0.
    destruct (Z.ltb_spec capacity (Z.of_nat (length (memory er) + 1)));
      [|lia].
    destruct (memory er) as [|x l]; [reflexivity|cbn in *; lia].
Qed.

(** X3 - A fresh buffer is ready exactly from the add number
    [min(capacity, min_size + batch_size)] on (the requested [min_size]):
    readiness is reached at the latest when the buffer is full, and further
    adds never take it away. *)
Theorem ready_threshold
  (capacity requested batch : Z) (er0 : t A) (vs ws : list A) :
  init A capacity requested batch = inr er0 ->
  (is_ready (add_all er0 vs) = true
   <-> Z.min capacity (requested + batch) <= Z.of_nat (length vs))
  /\ (capacity <= Z.of_nat (length vs) -> is_ready (add_all er0 vs) = true)
  /\ (is_ready (add_all er0 vs) = true ->
      is_ready (add_all er0 (vs ++ ws)) = true).
Proof.
  intros Hinit.
  destruct (init_inversion _ _ _ _ Hinit) as (Hreq & Hcap & Her0).
  assert (Hready : forall l,
             is_ready (add_all er0 l) = true
             <-> Z.min capacity (requested + batch) <= Z.of_nat (length l)).
  { intros l; unfold is_ready.
    destruct (add_all_fields er0 l) as (_ & -> & ->).
    rewrite (fresh_size _ _ _ _ l Hinit), Her0; cbn [min_size batch_size].
    rewrite Z.leb_le; lia. }
  split; [apply Hready|]; split.
  - intros Hfull; apply Hready; lia.
  - rewrite !Hready, length_app; lia.
Qed.

(** X4 - [sample] succeeds exactly when [0 <= batch_size <= size], whether
    or not the buffer is ready, and then returns [batch_size] entries;
    otherwise it raises the [ValueError] of [random.sample]. *)
Theorem sample_succeeds_iff (rand : Rng) (er : t A) :
  (0 <= batch_size er <= size er ->
   exists picked,
     sample rand er = inr picked
     /\ Z.of_nat (length picked) = batch_size er
     /\ incl picked (memory er))
  /\ (batch_size er < 0 \/ size er < batch_size er ->
      sample rand er
      = inl (ValueError "Sample larger than population or is negative")).
Proof.
  unfold sample, random_sample, size; split.
  - intros [Hlo Hhi].
    destruct (Z.leb_spec 0 (batch_size er)); [|lia].
    destruct (Z.leb_spec (batch_size er) (Z.of_nat (length (memory er))));
      [|lia].
    assert (Hfit : (Z.to_nat (batch_size er) <= length (memory er))%nat)
      by lia.
    eexists; split; [reflexivity|]; split.
    + rewrite sample_pool_length by exact Hfit; lia.
    + destruct (sample_pool_perm rand _ 0%nat _ Hfit) as [rest Hperm].
      intros x Hx; apply (Permutation_in x Hperm), in_or_app; now left.
  - intros Hbad.
    destruct (Z.leb_spec 0 (batch_size er));
      destruct (Z.leb_spec (batch_size er) (Z.of_nat (length (memory er))));
      try reflexivity; lia.
Qed.

(** X5 - Sampling as many entries as the buffer holds returns the whole
    buffer, rearranged. *)
Theorem sample_everything (rand : Rng) (er : t A) :
  batch_size er = size er ->
  exists picked,
    sample rand er = inr picked /\ Permutation picked (memory er).
Proof.
  unfold sample, random_sample, size; intros Hall.
  destruct (Z.leb_spec 0 (batch_size er)); [|lia].
  destruct (Z.leb_spec (batch_size er) (Z.of_nat (length (memory er))));
    [|lia].
  assert (Hfit : (Z.to_nat (batch_size er) <= length (memory er))%nat) by lia.
  eexists; split; [reflexivity|].
  destruct (sample_pool_perm rand _ 0%nat _ Hfit) as [rest Hperm].
  pose proof (Permutation_length Hperm) as Hlen.
  rewrite length_app, sample_pool_length in Hlen by exact Hfit.
  destruct rest as [|x rest]; [|cbn [length] in Hlen; lia].
  rewrite app_nil_r in Hperm; exact Hperm.
Qed.

End Replay.

Lemma buffer_holds_latest_witness :
  init nat 3 2 1 = inr (mk [] 3 1 2)
  /\ memory (add_all (mk [] 3 1 2) [1; 2; 3; 4]%nat) = [2; 3; 4]%nat.
Proof.
  split; [reflexivity|].
  apply (buffer_holds_latest 3 2 1 (mk [] 3 1 2) [1; 2; 3; 4]%nat);
    reflexivity.
Defined.

Lemma add_step_witness :
  init nat 2 1 1 = inr (mk [] 2 1 1)
  /\ size (add_all (mk [] 2 1 1) [1; 2]%nat) = 2
  /\ 0 < 2
  /\ memory (add (add_all (mk [] 2 1 1) [1; 2]%nat) 3%nat)
     = tl (memory (add_all (mk [] 2 1 1) [1; 2]%nat)) ++ [3%nat].
Proof.
  split; [reflexivity|]; split; [reflexivity|]; split; [lia|].
  apply (add_step 2 1 1 (mk [] 2 1 1) [1; 2]%nat 3%nat);
    [reflexivity | reflexivity | lia].
Defined.

Lemma ready_threshold_witness :
  init nat 10 9 4 = inr (mk [] 10 4 6)
  /\ (is_ready (add_all (mk [] 10 4 6) (repeat 0%nat 10)) = true
      <-> Z.min 10 (9 + 4) <= Z.of_nat (length (repeat 0%nat 10))).
Proof.
  split; [reflexivity|].
  apply (ready_threshold 10 9 4 (mk [] 10 4 6) (repeat 0%nat 10) []);
    reflexivity.
Defined.

Lemma sample_succeeds_iff_witness :
  0 <= batch_size (mk [5; 6; 7]%nat 10 2 6) <= size (mk [5; 6; 7]%nat 10 2 6)
  /\ is_ready (mk [5; 6; 7]%nat 10 2 6) = false
  /\ exists picked,
      sample (fun _ => 1%nat) (mk [5; 6; 7]%nat 10 2 6) = inr picked
      /\ Z.of_nat (length picked) = batch_size (mk [5; 6; 7]%nat 10 2 6)
      /\ incl picked (memory (mk [5; 6; 7]%nat 10 2 6)).
Proof.
  split; [cbn; lia|]; split; [reflexivity|].
  apply (proj1 (sample_succeeds_iff (fun _ => 1%nat) (mk [5; 6; 7]%nat 10 2 6)));
    cbn; lia.
Defined.

Lemma sample_everything_witness :
  batch_size (mk [5; 6; 7]%nat 3 3 0) = size (mk [5; 6; 7]%nat 3 3 0)
  /\ exists picked,
      sample (fun i => i) (mk [5; 6; 7]%nat 3 3 0) = inr picked
      /\ Permutation picked (memory (mk [5; 6; 7]%nat 3 3 0)).
Proof.
  split; [reflexivity|].
  apply (sample_everything (fun i => i) (mk [5; 6; 7]%nat 3 3 0)); reflexivity.
Defined.

End ReplayMore.

(** ** The thread learner's loop *)

Module LearnerMore.
Import ThreadLearner LearnerFacts.

Section WithBackend.
Context {backend : Backend}.

(** What collecting leaves alone: the networks, the optimizer step counter,
    the stop flag, the writer, and the learner's averages and report mark. *)
Lemma collect_frame (cfg : Config) (fuel : nat) :
  forall th b,
    let th' := fst (collect cfg fuel th b) in
    weights (glob th') = weights (glob th)
    /\ target_weights (glob th') = target_weights (glob th)
    /\ step_counter (glob th') = step_counter (glob th)
    /\ request_stop (glob th') = request_stop (glob th)
    /\ writer (glob th') = writer (glob th)
    /\ local_weights (self th') = local_weights (self th)
    /\ ep_reward (vars th') = ep_reward (vars th)
    /\ ep_q (vars th') = ep_q (vars th)
    /\ prev_step (vars th') = prev_step (vars th).
Proof.
  induction fuel as [|fuel IH]; intros th b; cbn [collect].
  - cbn [fst]; repeat split.
  - destruct (collecting cfg th b); [|cbn [fst]; repeat split].
    specialize (IH (fst (collect_step th b)) (snd (collect_step th b))).
    cbn zeta in IH; exact IH.
Qed.

Lemma collect_lengths (cfg : Config) (fuel : nat) :
  forall th b,
    length (batch_rewards b) = length (batch_obs b) ->
    length (batch_actions b) = length (batch_obs b) ->
    let b' := snd (collect cfg fuel th b) in
    length (batch_rewards b') = length (batch_obs b')
    /\ length (batch_actions b') = length (batch_obs b').
Proof.
  induction fuel as [|fuel IH]; intros th b Hr Ha; cbn [collect].
  - cbn [snd]; auto.
  - destruct (collecting cfg th b); [|cbn [snd]; auto].
    apply IH; cbn [collect_step snd batch_obs batch_rewards batch_actions];
      rewrite !length_app; cbn [length]; lia.
Qed.

Lemma collect_step_obs (th : Thread) (b : Batch) :
  batch_obs (snd (collect_step th b)) = batch_obs b ++ [obs (vars th)].
Proof. reflexivity. Qed.

Lemma collect_step_counter (th : Thread) (b : Batch) :
  obs_counter (glob (fst (collect_step th b))) = (obs_counter (glob th) + 1)%Z.
Proof. reflexivity. Qed.

Lemma collect_counter (cfg : Config) (fuel : nat) :
  forall th b,
    (obs_counter (glob (fst (collect cfg fuel th b)))
     + Z.of_nat (length (batch_obs b))
     = obs_counter (glob th)
       + Z.of_nat (length (batch_obs (snd (collect cfg fuel th b)))))%Z.
Proof.
  induction fuel as [|fuel IH]; intros th b; cbn [collect].
  - cbn [fst snd]; lia.
  - destruct (collecting cfg th b); [|cbn [fst snd]; lia].
    specialize (IH (fst (collect_step th b)) (snd (collect_step th b))).
    rewrite collect_step_obs, collect_step_counter, length_app in IH.
    cbn [length] in IH; lia.
Qed.

Lemma collect_bound (cfg : Config) (fuel : nat) :
  forall th b,
    (Z.of_nat (length (batch_obs (snd (collect cfg fuel th b))))
     <= Z.max (Z.of_nat (length (batch_obs b))) (batch_size cfg))%Z.
Proof.
  induction fuel as [|fuel IH]; intros th b; cbn [collect].
  - cbn [snd]; lia.
  - destruct (collecting cfg th b) eqn:Hc; [|cbn [snd]; lia].
    unfold collecting in Hc; apply andb_true_iff in Hc.
    destruct Hc as [_ Hroom]; apply Z.ltb_lt in Hroom.
    specialize (IH (fst (collect_step th b)) (snd (collect_step th b))).
    rewrite collect_step_obs, length_app in IH.
    cbn [length] in IH; lia.
Qed.

Lemma collect_prefix (cfg : Config) (fuel : nat) :
  forall th b, exists more,
    batch_obs (snd (collect cfg fuel th b)) = batch_obs b ++ more.
Proof.
  induction fuel as [|fuel IH]; intros th b; cbn [collect].
  - exists []; cbn [snd]; now rewrite app_nil_r.
  - destruct (collecting cfg th b); [|exists []; cbn [snd]; now rewrite app_nil_r].
    destruct (IH (fst (collect_step th b)) (snd (collect_step th b)))
      as [more Hmore].
    rewrite Hmore, collect_step_obs.
    exists (obs (vars th) :: more); now rewrite <- app_assoc.
Qed.

Lemma reset_if_term_clears (th : Thread) :
  term (vars (reset_if_term th)) = false.
Proof.
  unfold reset_if_term; destruct (term (vars th)) eqn:Ht; [reflexivity|exact Ht].
Qed.

(** X6 - Every collected batch has as many rewards and actions as
    observations and at most [batch_size] of them; collecting stops early
    only because the episode ended, so a batch that did not end the episode
    is full. *)
Theorem batch_shape (cfg : Config) (th : Thread) :
  let th' := fst (collect_batch cfg th) in
  let b := snd (collect_batch cfg th) in
  length (batch_rewards b) = length (batch_obs b)
  /\ length (batch_actions b) = length (batch_obs b)
  /\ (Z.of_nat (length (batch_obs b)) <= Z.max 0 (batch_size cfg))%Z
  /\ ((Z.of_nat (length (batch_obs b)) < batch_size cfg)%Z ->
      term (vars th') = true)
  /\ (term (vars th') = false -> (0 <= batch_size cfg)%Z ->
      Z.of_nat (length (batch_obs b)) = batch_size cfg).
Proof.
  intros th' b.
  pose proof (collect_batch_done cfg th) as Hdone.
  fold th' b in Hdone; unfold collecting in Hdone.
  pose proof (collect_bound cfg (Z.to_nat (batch_size cfg))
                (reset_if_term (sync_global th)) (mkBatch [] [] [])) as Hb.
  cbn [batch_obs length] in Hb; fold (collect_batch cfg th) in Hb; fold b in Hb.
  destruct (collect_lengths cfg (Z.to_nat (batch_size cfg))
              (reset_if_term (sync_global th)) (mkBatch [] [] [])
              eq_refl eq_refl) as [Hr Ha].
  fold (collect_batch cfg th) in Hr, Ha; fold b in Hr, Ha.
  split; [exact Hr|]; split; [exact Ha|]; split; [lia|]; split.
  - intros Hshort; apply Z.ltb_lt in Hshort; rewrite Hshort in Hdone.
    destruct (term (vars th')); [reflexivity|discriminate].
  - intros Hterm Hpos; rewrite Hterm in Hdone; cbn [negb andb] in Hdone.
    apply Z.ltb_ge in Hdone; lia.
Qed.

(** X7 - With [batch_size >= 1], a batch opens with the observation the
    previous batch stopped at, unless that batch ended an episode: then it
    opens with the observation of a fresh [env.reset()]. *)
Theorem batch_start (cfg : Config) (th : Thread) :
  (1 <= batch_size cfg)%Z ->
  hd_error (batch_obs (snd (collect_batch cfg th)))
  = Some (if term (vars th)
          then fst (env_reset (env (self th)))
          else obs (vars th)).
Proof.
  intros Hbs; unfold collect_batch.
  destruct (Z.to_nat (batch_size cfg)) as [|fuel] eqn:Hfuel; [lia|].
  cbn [collect]; unfold collecting at 1.
  rewrite reset_if_term_clears; cbn [negb andb batch_obs length].
  destruct (Z.ltb_spec (Z.of_nat 0) (batch_size cfg)); [|lia].
  destruct (collect_prefix cfg fuel
              (fst (collect_step (reset_if_term (sync_global th))
                      (mkBatch [] [] [])))
              (snd (collect_step (reset_if_term (sync_global th))
                      (mkBatch [] [] [])))) as [more ->].
  rewrite collect_step_obs; cbn [batch_obs app hd_error]; f_equal.
  unfold reset_if_term, sync_global; cbn [vars term].
  destruct (term (vars th)); reflexivity.
Qed.

(** X8 - Collecting a batch calls [increment_obs_counter] once per
    environment step: the global observation counter moves by the length of
    the batch. *)
Theorem batch_counts_observations (cfg : Config) (th : Thread) :
  obs_counter (glob (fst (collect_batch cfg th)))
  = (obs_counter (glob th)
     + Z.of_nat (length (batch_obs (snd (collect_batch cfg th)))))%Z.
Proof.
  unfold collect_batch.
  pose proof (collect_counter cfg (Z.to_nat (batch_size cfg))
                (reset_if_term (sync_global th)) (mkBatch [] [] [])) as H.
  cbn [batch_obs length] in H; rewrite Z.add_0_r in H; rewrite H.
  f_equal; unfold reset_if_term, sync_global; cbn [vars term glob].
  destruct (term (vars th)); reflexivity.
Qed.

Lemma start_frame (th : Thread) :
  let th0 := reset_if_term (sync_global th) in
  glob th0 = glob th
  /\ local_weights (self th0) = weights (glob th)
  /\ ep_reward (vars th0) = ep_reward (vars th)
  /\ ep_q (vars th0) = ep_q (vars th)
  /\ prev_step (vars th0) = prev_step (vars th).
Proof.
  unfold reset_if_term, sync_global; cbn [vars term].
  destruct (term (vars th)); repeat split.
Qed.

Lemma bootstrap_frame (th1 th2 : Thread) (expected : Q) :
  bootstrap th1 = inr (expected, th2) ->
  glob th2 = glob th1 /\ self th2 = self th1
  /\ prev_step (vars th2) = prev_step (vars th1)
  /\ term (vars th2) = term (vars th1)
  /\ obs (vars th2) = obs (vars th1).
Proof.
  unfold bootstrap; destruct (term (vars th1)) eqn:Ht; cbn [negb].
  - intros [= _ <-]; cbn; auto.
  - destruct (np_max (target_predict (glob th1) (obs (vars th1))));
      cbn [bind ret]; [discriminate|].
    intros [= _ <-]; cbn; auto.
Qed.

(** The shape of a pass that did not raise. *)
Lemma iteration_inversion (cfg : Config) (th th' : Thread) :
  iteration cfg th = inr th' ->
  exists expected th2,
    bootstrap (fst (collect_batch cfg th)) = inr (expected, th2)
    /\ batch_obs (snd (collect_batch cfg th)) <> []
    /\ let b := snd (collect_batch cfg th) in
       let summarize :=
         term (vars th2) && negb (log_freq cfg =? 0)%Z
         && (log_freq cfg <? obs_counter (glob th2) - prev_step (vars th2))%Z in
       let trained :=
         _train_on_batch th2 (batch_obs b) (batch_actions b)
           (discount_rewards (batch_rewards b) (gamma cfg) expected)
           summarize in
       th' = if summarize then report cfg (fst trained) (snd trained)
             else snd trained.
Proof.
  unfold iteration.
  destruct (bootstrap (fst (collect_batch cfg th))) as [e | [expected th2]];
    cbn [bind fst snd]; [discriminate|].
  destruct (batch_obs (snd (collect_batch cfg th))) as [|o l] eqn:Hobs;
    cbn [np_vstack bind raise ret]; [discriminate|].
  intros [= <-]; exists expected, th2.
  split; [reflexivity|]; split; [discriminate|reflexivity].
Qed.

(** What a pass that did not raise leaves alone, and when it reports. *)
Lemma iteration_frame (cfg : Config) (th th' : Thread) :
  iteration cfg th = inr th' ->
  local_weights (self th') = weights (glob th)
  /\ target_weights (glob th') = target_weights (glob th)
  /\ request_stop (glob th') = request_stop (glob th)
  /\ obs_counter (glob th') = obs_counter (glob (fst (collect_batch cfg th)))
  /\ term (vars th') = term (vars (fst (collect_batch cfg th)))
  /\ (exists written, writer (glob th') = writer (glob th) ++ written)
  /\ let summarize :=
       term (vars th') && negb (log_freq cfg =? 0)%Z
       && (log_freq cfg <? obs_counter (glob th') - prev_step (vars th))%Z in
     prev_step (vars th')
     = (if summarize then obs_counter (glob th') else prev_step (vars th))
     /\ (summarize = false -> writer (glob th') = writer (glob th)).
Proof.
  intros Hit.
  destruct (iteration_inversion cfg th th' Hit)
    as (expected & th2 & Hboot & _ & Hth').
  cbn zeta in Hth'.
  destruct (bootstrap_frame _ _ _ Hboot) as (Hg & Hs & Hp & Ht & _).
  destruct (start_frame th) as (Hg0 & Hl0 & _ & _ & Hp0); cbn zeta in *.
  destruct (collect_frame cfg (Z.to_nat (batch_size cfg))
              (reset_if_term (sync_global th)) (mkBatch [] [] []))
    as (Hw & Htw & Hsc & Hrs & Hwr & Hlw & _ & _ & Hps).
  cbn zeta in *; fold (collect_batch cfg th) in Hw, Htw, Hsc, Hrs, Hwr, Hlw, Hps.
  rewrite Hg0 in Hw, Htw, Hsc, Hrs, Hwr.
  rewrite Hl0 in Hlw; rewrite Hp0 in Hps.
  set (th1 := fst (collect_batch cfg th)) in *.
  rewrite Hp, Hps, Ht, Hg in Hth'.
  set (summarize :=
         term (vars th1) && negb (log_freq cfg =? 0)%Z
         && (log_freq cfg <? obs_counter (glob th1) - prev_step (vars th))%Z)
    in *.
  assert (Hsame : term (vars th') = term (vars th1)
                  /\ obs_counter (glob th') = obs_counter (glob th1)).
  { rewrite Hth'; destruct summarize;
      cbn [report _train_on_batch fst snd glob vars term obs_counter];
      rewrite ?Hg, ?Ht; auto. }
  destruct Hsame as [Hterm' Hobs'].
  rewrite Hterm', Hobs'; fold summarize.
  rewrite Hth'; destruct summarize;
    cbn [report _train_on_batch fst snd glob self vars term obs_counter
           local_weights target_weights request_stop writer prev_step];
    rewrite ?Hg, ?Hs, ?Hp, ?Hps, ?Hwr;
    (repeat split; try assumption; try reflexivity; try discriminate);
    try (eexists; reflexivity);
    try (exists []; now rewrite app_nil_r).
Qed.

(** X9 - A learner configured with [batch_size <= 0] never trains: its
    batch is empty, and the pass raises [ValueError] (from [np.max] of an
    empty prediction or else from [np.vstack] of no observation). *)
Theorem empty_batch_raises (cfg : Config) (th : Thread) :
  (batch_size cfg <= 0)%Z ->
  batch_obs (snd (collect_batch cfg th)) = []
  /\ exists msg, iteration cfg th = inl (ValueError msg).
Proof.
  intros Hbs.
  assert (Hempty : collect_batch cfg th
                   = (reset_if_term (sync_global th), mkBatch [] [] [])).
  { unfold collect_batch.
    replace (Z.to_nat (batch_size cfg)) with 0%nat by lia; reflexivity. }
  split; [rewrite Hempty; reflexivity|].
  unfold iteration; rewrite Hempty; cbn [fst snd batch_obs].
  unfold bootstrap; rewrite reset_if_term_clears; cbn [negb].
  destruct (target_predict (glob (reset_if_term (sync_global th)))
              (obs (vars (reset_if_term (sync_global th))))) as [|q qs];
    cbn [np_max bind raise ret np_vstack]; eexists; reflexivity.
Qed.

(** X10 - A pass that does not raise computes its gradients at the
    weights the global agent had when the pass began, and leaves the target
    network and the [request_stop] flag as they were. *)
Theorem pass_syncs_first (cfg : Config) (th th' : Thread) :
  iteration cfg th = inr th' ->
  local_weights (self th') = weights (glob th)
  /\ target_weights (glob th') = target_weights (glob th)
  /\ request_stop (glob th') = request_stop (glob th).
Proof.
  intros Hit; destruct (iteration_frame cfg th th' Hit) as (H1 & H2 & H3 & _).
  auto.
Qed.

(** X11 - A learner reports only after a batch that ended an episode, with
    [log_freq] non-zero and more than [log_freq] observations counted since
    its previous report: then its report mark moves to the current
    observation counter; otherwise neither the mark nor the writer changes.
    The writer is only ever appended to. *)
Theorem report_cadence (cfg : Config) (th th' : Thread) :
  iteration cfg th = inr th' ->
  let due :=
    term (vars th') && negb (log_freq cfg =? 0)%Z
    && (log_freq cfg <? obs_counter (glob th') - prev_step (vars th))%Z in
  (due = true -> prev_step (vars th') = obs_counter (glob th'))
  /\ (due = false ->
      prev_step (vars th') = prev_step (vars th)
      /\ writer (glob th') = writer (glob th))
  /\ (exists written, writer (glob th') = writer (glob th) ++ written).
Proof.
  intros Hit due.
  destruct (iteration_frame cfg th th' Hit)
    as (_ & _ & _ & _ & _ & Hgrow & Hmark & Hquiet).
  fold due in Hmark, Hquiet.
  split; [intros Hdue; now rewrite Hdue in Hmark|].
  split; [|exact Hgrow].
  intros Hdue; split; [now rewrite Hdue in Hmark|now apply Hquiet].
Qed.

Lemma collect_batch_nonempty (cfg : Config) (th : Thread) :
  (1 <= batch_size cfg)%Z -> batch_obs (snd (collect_batch cfg th)) <> [].
Proof.
  intros Hbs; unfold collect_batch.
  destruct (Z.to_nat (batch_size cfg)) as [|fuel] eqn:Hfuel; [lia|].
  cbn [collect]; unfold collecting at 1.
  rewrite reset_if_term_clears; cbn [negb andb batch_obs length].
  destruct (Z.ltb_spec (Z.of_nat 0) (batch_size cfg)); [|lia].
  destruct (collect_prefix cfg fuel
              (fst (collect_step (reset_if_term (sync_global th))
                      (mkBatch [] [] [])))
              (snd (collect_step (reset_if_term (sync_global th))
                      (mkBatch [] [] [])))) as [more ->].
  rewrite collect_step_obs; cbn [batch_obs app]; discriminate.
Qed.

(** With a batch to collect and a network that values at least one action,
    a pass does not raise. *)
Lemma iteration_succeeds (cfg : Config) (th : Thread) :
  (1 <= batch_size cfg)%Z ->
  (forall net o, forward net o <> []) ->
  exists th', iteration cfg th = inr th'.
Proof.
  intros Hbs Hnet; unfold iteration.
  pose proof (collect_batch_nonempty cfg th Hbs) as Hobs.
  set (th1 := fst (collect_batch cfg th)).
  assert (Hboot : exists boot, bootstrap th1 = inr boot).
  { unfold bootstrap, target_predict.
    destruct (term (vars th1)); cbn [negb]; [eexists; reflexivity|].
    destruct (forward (target_weights (glob th1)) (obs (vars th1)))
      as [|q qs] eqn:Hq; [now apply Hnet in Hq|].
    cbn [np_max bind ret]; eexists; reflexivity. }
  destruct Hboot as [boot ->]; cbn [bind].
  destruct (batch_obs (snd (collect_batch cfg th))) as [|o l];
    [congruence|].
  cbn [np_vstack bind ret]; eexists; reflexivity.
Qed.

(** X12 - [run] ends normally only when it sees [request_stop] set, and
    otherwise only by an exception that one of its passes raised.  A
    learner never sets the flag itself: as long as nobody else does, the
    loop does not end normally; and when moreover [batch_size >= 1] and the
    network values at least one action, no pass raises, so that the loop is
    still running after any number of passes. *)
Theorem run_stops_only_on_request
  (cfg : Config) (others : nat -> GlobalAgent -> GlobalAgent) (fuel : nat) :
  forall (n : nat) (th : Thread),
    (forall th', run_loop cfg others fuel n th = inr (Some th') ->
                 request_stop (glob th') = true)
    /\ (forall e, run_loop cfg others fuel n th = inl e ->
                  exists th1, iteration cfg th1 = inl e)
    /\ ((forall k g, request_stop (others k g) = request_stop g) ->
        request_stop (glob th) = false ->
        (forall th', run_loop cfg others fuel n th <> inr (Some th'))
        /\ ((1 <= batch_size cfg)%Z ->
            (forall net o, forward net o <> []) ->
            run_loop cfg others fuel n th = inr None)).
Proof.
  induction fuel as [|fuel IH]; intros n th; cbn [run_loop].
  - split; [discriminate|]; split; [discriminate|].
    intros _ _; split; [discriminate|reflexivity].
  - set (th1 := mkThread (others n (glob th)) (self th) (vars th)).
    split; [|split].
    + intros th'; destruct (request_stop (glob th1)) eqn:Hstop.
      * intros [= <-]; exact Hstop.
      * destruct (iteration cfg th1) as [e | th2]; cbn [bind];
          [discriminate|].
        apply (IH (S n) th2).
    + intros e; destruct (request_stop (glob th1)); [discriminate|].
      destruct (iteration cfg th1) as [e1 | th2] eqn:Hit; cbn [bind].
      * intros [= <-]; eauto.
      * apply (IH (S n) th2).
    + intros Hothers Hclear.
      assert (Hstop : request_stop (glob th1) = false)
        by (cbn [th1 glob]; rewrite Hothers; exact Hclear).
      rewrite Hstop; split.
      * intros th'.
        destruct (iteration cfg th1) as [e | th2] eqn:Hit; cbn [bind];
          [discriminate|].
        apply (IH (S n) th2); [exact Hothers|].
        destruct (iteration_frame cfg th1 th2 Hit) as (_ & _ & -> & _).
        exact Hstop.
      * intros Hbs Hnet.
        destruct (iteration_succeeds cfg th1 Hbs Hnet) as [th2 Hit].
        rewrite Hit; cbn [bind].
        apply (IH (S n) th2); try assumption.
        destruct (iteration_frame cfg th1 th2 Hit) as (_ & _ & -> & _).
        exact Hstop.
Qed.

End WithBackend.

Lemma batch_shape_witness :
  (Z.of_nat
     (length (batch_obs
                (snd (collect_batch (backend := counting_backend)
                        (mkConfig "ThreadLearner0" 0.9 32 100)
                        (counting_thread 0 true))))) < 32)%Z
  /\ term (vars (fst (collect_batch (backend := counting_backend)
                        (mkConfig "ThreadLearner0" 0.9 32 100)
                        (counting_thread 0 true)))) = true.
Proof.
  split; [reflexivity|].
  apply (batch_shape (backend := counting_backend)
           (mkConfig "ThreadLearner0" 0.9 32 100) (counting_thread 0 true));
    reflexivity.
Defined.

Lemma batch_start_witness :
  (1 <= batch_size (mkConfig "ThreadLearner0" 0.9 2 100))%Z
  /\ hd_error (batch_obs
                 (snd (collect_batch (backend := counting_backend)
                         (mkConfig "ThreadLearner0" 0.9 2 100)
                         (counting_thread 1 false))))
     = Some 1%nat.
Proof.
  split; [discriminate|].
  apply (batch_start (backend := counting_backend)
           (mkConfig "ThreadLearner0" 0.9 2 100) (counting_thread 1 false));
    discriminate.
Defined.

Lemma empty_batch_raises_witness :
  (batch_size (mkConfig "ThreadLearner0" 0.9 0 100) <= 0)%Z
  /\ exists msg,
      iteration (backend := counting_backend)
        (mkConfig "ThreadLearner0" 0.9 0 100) (counting_thread 0 true)
      = inl (ValueError msg).
Proof.
  split; [discriminate|].
  apply (empty_batch_raises (backend := counting_backend)
           (mkConfig "ThreadLearner0" 0.9 0 100) (counting_thread 0 true));
    discriminate.
Defined.

Lemma pass_syncs_first_witness :
  exists th',
    iteration (backend := counting_backend)
      (mkConfig "ThreadLearner0" 0.9 2 100) (counting_thread 0 true)
    = inr th'
    /\ local_weights (self th') = weights (glob (counting_thread 0 true)).
Proof.
  eexists; split; [reflexivity|].
  apply (pass_syncs_first (backend := counting_backend)
           (mkConfig "ThreadLearner0" 0.9 2 100) (counting_thread 0 true));
    reflexivity.
Defined.

Lemma report_cadence_witness :
  exists th',
    iteration (backend := counting_backend)
      (mkConfig "ThreadLearner0" 0.9 32 1) (counting_thread 0 true)
    = inr th'
    /\ prev_step (vars th') = obs_counter (glob th').
Proof.
  eexists; split; [reflexivity|].
  apply (proj1 (report_cadence (backend := counting_backend)
                  (mkConfig "ThreadLearner0" 0.9 32 1)
                  (counting_thread 0 true) _ eq_refl));
    reflexivity.
Defined.

Lemma run_stops_only_on_request_witness :
  (forall (k : nat) (g : GlobalAgent (backend := counting_backend)),
      request_stop ((fun _ g' => g') k g) = request_stop g)
  /\ request_stop (glob (counting_thread 0 true)) = false
  /\ (1 <= batch_size (mkConfig "ThreadLearner0" 0.9 2 100))%Z
  /\ (forall net o, forward (Backend := counting_backend) net o <> [])
  /\ run_loop (backend := counting_backend)
       (mkConfig "ThreadLearner0" 0.9 2 100) (fun _ g => g) 3 0
       (counting_thread 0 true)
     = inr None.
Proof.
  assert (Hnet : forall net o,
             forward (Backend := counting_backend) net o <> [])
    by (intros net o; discriminate).
  split; [reflexivity|]; split; [reflexivity|].
  split; [discriminate|]; split; [exact Hnet|].
  apply (proj2 (proj2 (proj2 (run_stops_only_on_request
                                (backend := counting_backend)
                                (mkConfig "ThreadLearner0" 0.9 2 100)
                                (fun _ g => g) 3 0 (counting_thread 0 true)))
                  (fun _ _ => eq_refl) eq_refl));
    [discriminate | exact Hnet].
Defined.

End LearnerMore.

(** ** The coordinator's loop *)

Module TrainMore.
Import AsyncDQNAgent TrainFacts.

(** The events a command of the loop body leaves in the trace, and the
    marks it moves. *)
Definition events_of (a : Args) (c : Cmd) : list Event :=
  match c with
  | CRender t => [Render t]
  | CSleep => [Sleep]
  | CWriteSummary => [WriteSummary]
  | CSaveWeights => [SaveWeights (log_dir a)]
  | CTargetUpdate => [TargetUpdate]
  | CReadStep | CMarkLog _ | CMarkTarget _ => []
  end.

Definition log_mark (older : Z) (c : Cmd) : Z :=
  match c with CMarkLog step => step | _ => older end.

Definition target_mark (older : Z) (c : Cmd) : Z :=
  match c with CMarkTarget step => step | _ => older end.


Lemma exec_all_effect (a : Args) (cmds : list Cmd) :
  forall st,
    trace (fold_left (exec a) cmds st)
    = trace st ++ flat_map (events_of a) cmds
    /\ last_log_step (fold_left (exec a) cmds st)
       = fold_left log_mark cmds (last_log_step st)
    /\ last_target_update (fold_left (exec a) cmds st)
       = fold_left target_mark cmds (last_target_update st)
    /\ request_stop (fold_left (exec a) cmds st) = request_stop st.
Proof.
  induction cmds as [|c cmds IH]; intros st; cbn [fold_left flat_map].
  - rewrite app_nil_r; auto.
  - destruct (IH (exec a st c)) as (-> & -> & -> & ->).
    destruct c; cbn; rewrite <- ?app_assoc, ?app_nil_r; auto.
Qed.

Lemma render_events (a : Args) (l : list nat) :
  flat_map (events_of a) (map CRender l) = map Render l.
Proof. induction l as [|t l IH]; cbn; congruence. Qed.

Lemma render_marks (l : list nat) (z : Z) :
  fold_left log_mark (map CRender l) z = z
  /\ fold_left target_mark (map CRender l) z = z.
Proof. induction l as [|t l IH]; cbn; auto. Qed.


(** X13 - A pass through the loop body that is not interrupted renders
    (when asked to), then writes a summary immediately followed by a
    checkpoint save exactly when [log_freq] or more observations were
    counted since the last one, then refreshes the target network exactly
    when [target_freq] or more were counted since the last refresh.
    Afterwards the loop is never [log_freq] (nor [target_freq]) or more
    observations behind the step it read, for positive frequencies. *)
Theorem pass_cadence (a : Args) (threads : nat) (st : Loop) (tk : Tick) :
  interrupted a threads st tk = false ->
  let step := obs_in_body tk in
  let st' := loop_body a threads st tk in
  let log_due := log_freq a <=? step - last_log_step st in
  let target_due := target_freq a <=? step - last_target_update st in
  trace st'
  = trace st
    ++ (if render a then map Render (seq 0 threads) ++ [Sleep] else [])
    ++ (if log_due then [WriteSummary; SaveWeights (log_dir a)] else [])
    ++ (if target_due then [TargetUpdate] else [])
  /\ last_log_step st' = (if log_due then step else last_log_step st)
  /\ last_target_update st'
     = (if target_due then step else last_target_update st)
  /\ (0 < log_freq a -> step - last_log_step st' < log_freq a)
  /\ (0 < target_freq a -> step - last_target_update st' < target_freq a).
Proof.
  intros Hquiet step st' log_due target_due.
  assert (Hst' : st' = fold_left (exec a)
                         (try_body a threads st (obs_in_body tk)) st).
  { unfold st', loop_body; unfold interrupted in Hquiet.
    destruct (interrupt tk) as [[done | done logged]|]; [| |reflexivity];
      now rewrite Hquiet. }
  destruct (exec_all_effect a (try_body a threads st (obs_in_body tk)) st)
    as (Htrace & Hlog & Htarget & _).
  rewrite <- Hst' in Htrace, Hlog, Htarget.
  unfold try_body in Htrace, Hlog, Htarget.
  fold step log_due target_due in Htrace, Hlog, Htarget.
  rewrite !flat_map_app in Htrace; rewrite !fold_left_app in Hlog, Htarget.
  assert (Hl : last_log_step st' = if log_due then step else last_log_step st).
  { rewrite Hlog; destruct (render a), log_due, target_due;
      rewrite ?fold_left_app; cbn; try reflexivity;
      apply (proj1 (render_marks _ _)). }
  assert (Ht : last_target_update st'
               = if target_due then step else last_target_update st).
  { rewrite Htarget; destruct (render a), log_due, target_due;
      rewrite ?fold_left_app; cbn; try reflexivity;
      apply (proj2 (render_marks _ _)). }
  split.
  - rewrite Htrace; destruct (render a), log_due, target_due;
      rewrite ?flat_map_app, ?render_events; reflexivity.
  - split; [exact Hl|]; split; [exact Ht|]; split; intros Hpos.
    + rewrite Hl; unfold log_due.
      destruct (Z.leb_spec (log_freq a) (step - last_log_step st)); lia.
    + rewrite Ht; unfold target_due.
      destruct (Z.leb_spec (target_freq a) (step - last_target_update st)); lia.
Qed.

(** X14 - A [KeyboardInterrupt] inside the [try] cuts the pass short: the
    trace gets the events of the commands completed so far - a prefix of
    what the whole pass would have written - followed by the handler's log
    line, and [request_stop] is set.  The rest of the pass is dropped, not
    resumed. *)
Theorem interrupt_cuts_pass
  (a : Args) (threads : nat) (st : Loop) (tk : Tick) (done : nat) :
  interrupt tk = Some (InTry done) ->
  (done < length (try_body a threads st (obs_in_body tk)))%nat ->
  let cmds := try_body a threads st (obs_in_body tk) in
  let whole :=
    loop_body a threads st
      (mkTick (alive tk) (interrupt_at_condition tk) (obs_at_condition tk)
         (obs_in_body tk) None) in
  trace (loop_body a threads st tk)
  = trace st ++ flat_map (events_of a) (firstn done cmds)
    ++ [LogInfo "Caught Ctrl+C! Stopping training process."]
  /\ trace whole
     = trace st ++ flat_map (events_of a) (firstn done cmds)
       ++ flat_map (events_of a) (skipn done cmds)
  /\ request_stop (loop_body a threads st tk) = true.
Proof.
  intros Hint Hdone cmds whole.
  unfold whole, loop_body; rewrite Hint; cbn [interrupt obs_in_body].
  fold cmds; apply Nat.ltb_lt in Hdone; fold cmds in Hdone; rewrite Hdone.
  destruct (exec_all_effect a (firstn done cmds) st) as (H1 & _).
  destruct (exec_all_effect a cmds st) as (H2 & _).
  cbn [on_keyboard_interrupt trace request_stop].
  rewrite H1, H2, <- app_assoc.
  rewrite <- flat_map_app, firstn_skipn; auto.
Qed.

(** X15 - An interrupt that falls after the loop moved [last_log_step]
    and before [save_weights] was done loses that period's checkpoint: the
    mark has moved, at most the summary was written, nothing was saved, so
    the next periodic save is a whole [log_freq] away. *)
Theorem interrupt_loses_periodic_save
  (a : Args) (threads : nat) (st : Loop) (tk : Tick) (done : nat) :
  render a = false ->
  log_freq a <= obs_in_body tk - last_log_step st ->
  interrupt tk = Some (InTry done) ->
  (2 <= done <= 3)%nat ->
  last_log_step (loop_body a threads st tk) = obs_in_body tk
  /\ trace (loop_body a threads st tk)
     = trace st ++ (if (done =? 3)%nat then [WriteSummary] else [])
       ++ [LogInfo "Caught Ctrl+C! Stopping training process."]
  /\ request_stop (loop_body a threads st tk) = true.
Proof.
  intros Hrender Hdue Hint Hdone.
  unfold loop_body, try_body; rewrite Hint, Hrender.
  apply Z.leb_le in Hdue; rewrite Hdue.
  destruct (target_freq a <=? obs_in_body tk - last_target_update st);
    (assert (Hcase : done = 2%nat \/ done = 3%nat) by lia;
     destruct Hcase as [-> | ->]);
    cbn [app length firstn Nat.ltb Nat.leb Nat.eqb fold_left exec emit
           on_keyboard_interrupt last_log_step trace request_stop];
    rewrite <- ?app_assoc; auto.
Qed.

(** The events of lines 90-112 for learner [t]. *)
Definition learner_events (rand : Rng) (pool : list Q) (t : nat) : list Event :=
  let eps_min := nth (randbelow rand t (length pool)) pool 0%Q in
  [LogSampledEpsilon eps_min t; CreatePolicy t eps_min; EnvCopy t;
   CreateLearner t].

Lemma random_choice_nth (rand : Rng) (t : nat) (pool : list Q) :
  pool <> [] ->
  random_choice rand t pool
  = inr (nth (randbelow rand t (length pool)) pool 0%Q)
  /\ In (nth (randbelow rand t (length pool)) pool 0%Q) pool.
Proof.
  intros Hne.
  assert (Hlt : (randbelow rand t (length pool) < length pool)%nat).
  { apply Nat.mod_upper_bound; destruct pool; [congruence|discriminate]. }
  split; [|now apply nth_In].
  unfold random_choice.
  destruct (nth_error pool (randbelow rand t (length pool))) as [x|] eqn:Hnth.
  - now rewrite (nth_error_nth _ _ 0%Q Hnth).
  - apply nth_error_None in Hnth; lia.
Qed.

Lemma create_learners_flat (rand : Rng) (pool : list Q) (n : nat) :
  pool <> [] ->
  forall t,
    create_learners rand pool t n
    = inr (flat_map (learner_events rand pool) (seq t n)).
Proof.
  intros Hne; induction n as [|n IH]; intros t; [reflexivity|].
  cbn [create_learners seq flat_map].
  rewrite (proj1 (random_choice_nth rand t pool Hne)), IH.
  reflexivity.
Qed.







(** X17 - With at least one thread asked for and an empty [epsilon_pool],
    [train] raises [IndexError] from the first [random.choice]: the train
    graph was built, but no environment was copied, no learner or writer
    created, no thread started, and nothing is saved; [request_stop] is as
    it was. *)
Theorem empty_pool_raises (a : Args) (w : World) :
  1 <= num_threads a ->
  epsilon_pool a = [] ->
  exists msg,
    train a w
    = (Raised (IndexError msg), [BuildTrainGraph], request_stop_before w).
Proof.
  intros Hn Hpool; unfold train.
  destruct (Z.ltb_spec (num_threads a) 1); [lia|].
  destruct (Z.to_nat (num_threads a)) as [|n] eqn:Hthreads; [lia|].
  assert (Hchoice : random_choice (rand w) 0 (@nil Q)
                    = inl (IndexError "Cannot choose from an empty sequence")).
  { unfold random_choice; destruct (randbelow (rand w) 0 (length (@nil Q)));
      reflexivity. }
  rewrite Hpool; cbn [create_learners]; rewrite Hchoice; cbn [bind].
  eexists; reflexivity.
Qed.


(** X19 - Past its checks, [train] sets up in this order: the train graph;
    then for each thread in turn an epsilon drawn from the pool (with
    replacement), a policy annealing to it, an environment copy and a
    learner; then the summary writer and the variable initialisation; a
    checkpoint restore exactly when [log_dir] is not empty and a checkpoint
    exists; and only then the start of the threads.  Whatever the loop does
    comes after. *)
Theorem setup_order (a : Args) (w : World) :
  1 <= num_threads a ->
  epsilon_pool a <> [] ->
  (forall t,
      In (nth (randbelow (rand w) t (length (epsilon_pool a)))
            (epsilon_pool a) 0%Q) (epsilon_pool a))
  /\ exists during,
      snd (fst (train a w))
      = [BuildTrainGraph]
        ++ flat_map (learner_events (rand w) (epsilon_pool a))
             (seq 0 (Z.to_nat (num_threads a)))
        ++ [CreateWriter (log_dir a); InitVariables]
        ++ (if negb (log_dir a =? "")%string && latest_checkpoint w
            then [LoadWeights (log_dir a)] else [])
        ++ map StartThread (seq 0 (Z.to_nat (num_threads a)))
        ++ during.
Proof.
  intros Hn Hpool; split.
  - intros t; apply (random_choice_nth (rand w) t _ Hpool).
  - unfold train.
    destruct (Z.ltb_spec (num_threads a) 1); [lia|].
    rewrite (create_learners_flat _ _ _ Hpool).
    match goal with
    | |- context [supervise a ?n ?tks ?st0] =>
        destruct (supervise_open a n tks st0) as (evs & Hevs & _);
        destruct (supervise a n tks st0) as [st | st | st]
    end;
      cbn [polled_state trace fst snd] in *.
    + destruct (cut_shutdown a (Z.to_nat (num_threads a))
                  (shutdown_interrupt w)) as [done|];
        cbn [fst snd]; rewrite Hevs.
      * exists (evs ++ done); now rewrite <- !app_assoc.
      * exists (evs ++ shutdown a (Z.to_nat (num_threads a))).
        now rewrite <- !app_assoc.
    + rewrite Hevs; exists evs; now rewrite <- !app_assoc.
    + rewrite Hevs; exists evs; now rewrite <- !app_assoc.
Qed.


Lemma pass_cadence_witness :
  interrupted two_threads 2 (mkLoop 0 0 false [])
    (mkTick [true; true] false 120 130 None) = false
  /\ trace (loop_body two_threads 2 (mkLoop 0 0 false [])
              (mkTick [true; true] false 120 130 None))
     = [WriteSummary; SaveWeights "logs"; TargetUpdate]
  /\ last_log_step (loop_body two_threads 2 (mkLoop 0 0 false [])
                      (mkTick [true; true] false 120 130 None)) = 130.
Proof.
  split; [reflexivity|].
  split;
    apply (pass_cadence two_threads 2 (mkLoop 0 0 false [])
             (mkTick [true; true] false 120 130 None)); reflexivity.
Defined.

Lemma interrupt_cuts_pass_witness :
  interrupt (mkTick [true; true] false 120 130 (Some (InTry 3)))
  = Some (InTry 3)
  /\ (3 < length (try_body two_threads 2 (mkLoop 0 0 false []) 130))%nat
  /\ trace (loop_body two_threads 2 (mkLoop 0 0 false [])
              (mkTick [true; true] false 120 130 (Some (InTry 3))))
     = [WriteSummary; LogInfo "Caught Ctrl+C! Stopping training process."].
Proof.
  split; [reflexivity|]; split; [cbn; lia|].
  apply (interrupt_cuts_pass two_threads 2 (mkLoop 0 0 false [])
           (mkTick [true; true] false 120 130 (Some (InTry 3))) 3);
    [reflexivity | cbn; lia].
Defined.

Lemma interrupt_loses_periodic_save_witness :
  render two_threads = false
  /\ log_freq two_threads <= 130 - 0
  /\ last_log_step (loop_body two_threads 2 (mkLoop 0 0 false [])
                      (mkTick [true; true] false 120 130 (Some (InTry 2)))) = 130
  /\ trace (loop_body two_threads 2 (mkLoop 0 0 false [])
              (mkTick [true; true] false 120 130 (Some (InTry 2))))
     = [LogInfo "Caught Ctrl+C! Stopping training process."].
Proof.
  split; [reflexivity|]; split; [cbn; lia|].
  split;
    apply (interrupt_loses_periodic_save two_threads 2 (mkLoop 0 0 false [])
             (mkTick [true; true] false 120 130 (Some (InTry 2))) 2);
    solve [reflexivity | cbn; lia | lia].
Defined.

Lemma empty_pool_raises_witness :
  1 <= num_threads (mkArgs 2 500 "logs" [] 100 100 false)
  /\ epsilon_pool (mkArgs 2 500 "logs" [] 100 100 false) = []
  /\ exists msg,
      train (mkArgs 2 500 "logs" [] 100 100 false) interrupted_run
      = (Raised (IndexError msg), [BuildTrainGraph],
         request_stop_before interrupted_run).
Proof.
  split; [cbn; lia|]; split; [reflexivity|].
  apply (empty_pool_raises (mkArgs 2 500 "logs" [] 100 100 false)
           interrupted_run); [cbn; lia | reflexivity].
Defined.



Lemma setup_order_witness :
  1 <= num_threads two_threads
  /\ epsilon_pool two_threads <> []
  /\ exists during,
      snd (fst (train two_threads interrupted_run))
      = [BuildTrainGraph]
        ++ flat_map (learner_events (rand interrupted_run)
                       (epsilon_pool two_threads)) (seq 0 2)
        ++ [CreateWriter "logs"; InitVariables]
        ++ [LoadWeights "logs"]
        ++ map StartThread (seq 0 2)
        ++ during.
Proof.
  assert (H1 : 1 <= num_threads two_threads) by (cbn; lia).
  assert (H2 : epsilon_pool two_threads <> []) by discriminate.
  split; [exact H1|]; split; [exact H2|].
  exact (proj2 (setup_order two_threads interrupted_run H1 H2)).
Defined.

End TrainMore.
